(** * The buffer sink of libavfilter (libavfilter/buffersink.c)

    A shallow embedding of the sink at the end of a filter graph: the
    single-slot hand-off between the graph and the caller
    ([start_frame], [av_buffersink_read]) and the audio re-chunking layer
    built on it ([read_from_fifo], [av_buffersink_read_samples]), with the
    teardown [uninit].

    The C code works on a filter context reached through pointers.  The
    embedding threads one [World] value through every function: the private
    context of the sink, the input link, and the part of the outside the
    sink talks to (the filter graph upstream, the allocator, the log of
    released objects).  A call that does not come back because an assertion
    fired or a pointer could not be followed is a [Fault]. *)

From Stdlib Require Import ZArith List Bool Lia.
Import ListNotations.

Local Open Scope Z_scope.

Set Implicit Arguments.

(** ** Machine integers *)

Definition INT64_MIN : Z := - 2 ^ 63.
Definition INT64_MAX : Z := 2 ^ 63 - 1.

Definition in_int64 (z : Z) : Prop := INT64_MIN <= z <= INT64_MAX.

(** The value an [int64_t] holds after an addition or a subtraction whose
    mathematical result is [z]: two's complement wrap-around. *)
Definition wrap64 (z : Z) : Z := (z + 2 ^ 63) mod 2 ^ 64 - 2 ^ 63.

Definition add64 (a b : Z) : Z := wrap64 (a + b).
Definition sub64 (a b : Z) : Z := wrap64 (a - b).

(** ** Status codes and constants of libavutil *)

(** Modelled from the spec: the error numbers behind the "invalid-state" and
    "resource-exhaustion" statuses; errno.h and libavutil/error.h are not
    under src/.  [AVERROR(e)] is [-e]. *)
Definition EINVAL : Z := 22.
Definition ENOMEM : Z := 12.
Definition AVERROR (e : Z) : Z := - e.

Definition MKTAG (a b c d : Z) : Z :=
  Z.lor a (Z.lor (Z.shiftl b 8) (Z.lor (Z.shiftl c 16) (Z.shiftl d 24))).

(** Modelled from the spec: the "end-of-stream" status, the negated tag
    'E','O','F',' ' of libavutil/error.h (not under src/). *)
Definition AVERROR_EOF : Z := - MKTAG 69 79 70 32.

(** Modelled from the spec: the "undefined" timestamp of libavutil/avutil.h
    (not under src/), the least [int64_t]. *)
Definition AV_NOPTS_VALUE : Z := INT64_MIN.

(** ** Rational time bases *)

Record AVRational : Type := mkRational { num : Z; den : Z }.

(** Modelled from the spec: [av_rescale_rnd] of libavutil/mathematics.c (not
    under src/) at the rounding the sink uses, nearest with ties away from
    zero: [a * b / c] in integer arithmetic, the product exact. *)
Definition av_rescale_rnd_near (a b c : Z) : Z :=
  if a <? 0 then - ((- a * b + c / 2) / c) else (a * b + c / 2) / c.

(** Modelled from the spec: [av_rescale_q a bq cq] converts the count [a] of
    units [bq] into units [cq], "samples x (1 / sample_rate) rescaled into
    the destination time base", on numerator/denominator pairs. *)
Definition av_rescale_q (a : Z) (bq cq : AVRational) : Z :=
  av_rescale_rnd_near a (num bq * den cq) (num cq * den bq).

(** Modelled from the spec: [av_get_channel_layout_nb_channels] of
    libavutil/audioconvert.c (not under src/), the number of channels of a
    layout mask. *)
Fixpoint popcount (p : positive) : Z :=
  match p with
  | xH => 1
  | xO p' => popcount p'
  | xI p' => 1 + popcount p'
  end.

Definition av_get_channel_layout_nb_channels (layout : Z) : Z :=
  match layout with
  | Zpos p => popcount p
  | _ => 0
  end.

(** ** Outcomes *)

Inductive fault : Type :=
| AssertFailed   (* av_assert0 aborted the process *)
| BadDeref       (* a null or uninitialised pointer was followed *)
| OutOfFuel.     (* the iteration bound of a loop was used up *)

Inductive result (A : Type) : Type :=
| Done (a : A)
| Fault (f : fault).

Arguments Done {A} a.
Arguments Fault {A} f.

Section Sink.

(** One sample: the values of all channels at one instant.  The sink never
    looks inside. *)
Variable sample : Type.

(** ** Data *)

(** A frame reference: [pts], [audio->nb_samples] and the samples that
    [extended_data] points to. *)
Record AVFilterBufferRef : Type := mkBuf {
  pts : Z;
  nb_samples : Z;
  extended_data : list sample
}.

(** A frame whose sample count is the number of samples it carries. *)
Definition wf_buf (b : AVFilterBufferRef) : Prop :=
  nb_samples b = Z.of_nat (length (extended_data b)).

(** Modelled from the spec: the Elastic Sample Queue, [AVAudioFifo] of
    libavutil/audio_fifo.c (not under src/): a FIFO of samples, measured in
    samples, created for a sample format and channel count with an initial
    capacity. *)
Record AVAudioFifo : Type := mkFifo {
  fifo_format : Z;
  fifo_channels : Z;
  fifo_allocated : Z;
  fifo_samples : list sample
}.

(** The private context of the sink. *)
Record BufferSinkContext : Type := mkSink {
  cur_buf : option AVFilterBufferRef;   (* last buffer delivered on the sink *)
  audio_fifo : option AVAudioFifo;      (* FIFO for audio samples *)
  next_pts : Z                          (* interpolating audio pts *)
}.

(** The fields of the input link [ctx->inputs[0]] that the sink reads, and
    its transient reference [link->cur_buf]. *)
Record AVFilterLink : Type := mkLink {
  format : Z;
  channel_layout : Z;
  sample_rate : Z;
  time_base : AVRational;
  link_cur_buf : option AVFilterBufferRef
}.

(** What one [ff_request_frame] on the link does: the frames the graph
    delivers to the sink's pad during the request, and the status it
    returns. *)
Record request_outcome : Type := mkOutcome {
  delivered : list AVFilterBufferRef;
  status : Z
}.

(** Calls of the two release functions, in the order they happen. *)
Inductive release_event : Type :=
| FifoFreed (af : AVAudioFifo)            (* av_audio_fifo_free *)
| BufferUnref (b : AVFilterBufferRef).    (* avfilter_unref_buffer *)

(** The filter context and its surroundings.
    - [upstream]: the outcomes of the coming requests, in order; when none
      is left the graph reports end-of-stream;
    - [ready]: what the graph's non-consuming poll reports;
    - [allocs]: whether each coming allocation succeeds, in order; when
      none is left, allocations succeed;
    - [released]: the release calls made so far. *)
Record World : Type := mkWorld {
  sink : BufferSinkContext;
  link : AVFilterLink;
  upstream : list request_outcome;
  ready : Z;
  allocs : list bool;
  released : list release_event
}.

(** A destination [AVFilterBufferRef **]: null, or the address of a cell
    that holds a frame reference or nothing usable. *)
Inductive bufptr : Type :=
| NullPtr
| Cell (content : option AVFilterBufferRef).

(** *** Field updates *)

Definition set_cur_buf (c : option AVFilterBufferRef) (s : BufferSinkContext) :=
  mkSink c (audio_fifo s) (next_pts s).
Definition set_audio_fifo (f : option AVAudioFifo) (s : BufferSinkContext) :=
  mkSink (cur_buf s) f (next_pts s).
Definition set_next_pts (p : Z) (s : BufferSinkContext) :=
  mkSink (cur_buf s) (audio_fifo s) p.
Definition set_link_cur_buf (c : option AVFilterBufferRef) (l : AVFilterLink) :=
  mkLink (format l) (channel_layout l) (sample_rate l) (time_base l) c.

Definition with_sink (s : BufferSinkContext) (w : World) :=
  mkWorld s (link w) (upstream w) (ready w) (allocs w) (released w).
Definition with_link (l : AVFilterLink) (w : World) :=
  mkWorld (sink w) l (upstream w) (ready w) (allocs w) (released w).
Definition with_upstream (u : list request_outcome) (w : World) :=
  mkWorld (sink w) (link w) u (ready w) (allocs w) (released w).
Definition with_allocs (a : list bool) (w : World) :=
  mkWorld (sink w) (link w) (upstream w) (ready w) a (released w).
Definition log_release (e : release_event) (w : World) :=
  mkWorld (sink w) (link w) (upstream w) (ready w) (allocs w) (released w ++ [e]).

(** ** The collaborators of the sink *)

(** Modelled from the spec: the allocator behind [ff_get_audio_buffer],
    [av_audio_fifo_alloc] and the growth of the queue; each attempt takes
    the next entry of [allocs]. *)
Definition try_alloc (w : World) : bool * World :=
  match allocs w with
  | [] => (true, w)
  | ok :: rest => (ok, with_allocs rest w)
  end.

(** Modelled from the spec: [ff_get_audio_buffer] of libavfilter/audio.c
    (not under src/): "allocates a fresh, writable audio frame of the given
    sample capacity ...; may fail with an out-of-memory condition".  The
    fresh frame has no timestamp and none of its samples is written yet. *)
Definition ff_get_audio_buffer (w : World) (n : Z)
  : option AVFilterBufferRef * World :=
  match try_alloc w with
  | (true, w1) => (Some (mkBuf AV_NOPTS_VALUE n []), w1)
  | (false, w1) => (None, w1)
  end.

(** Modelled from the spec: [av_audio_fifo_alloc] (libavutil/audio_fifo.c is
    not under src/): an empty queue for the given format and channel count,
    with [n] samples of initial capacity. *)
Definition av_audio_fifo_alloc (w : World) (fmt channels n : Z)
  : option AVAudioFifo * World :=
  match try_alloc w with
  | (true, w1) => (Some (mkFifo fmt channels n []), w1)
  | (false, w1) => (None, w1)
  end.

(** Modelled from the spec: the size query of the queue, in samples. *)
Definition av_audio_fifo_size (af : AVAudioFifo) : Z :=
  Z.of_nat (length (fifo_samples af)).

(** Modelled from the spec: "read-and-remove of an arbitrary sample count
    <= current size": the first [n] samples leave the queue, in order. *)
Definition av_audio_fifo_read (af : AVAudioFifo) (n : Z)
  : AVAudioFifo * list sample :=
  (mkFifo (fifo_format af) (fifo_channels af) (fifo_allocated af)
          (skipn (Z.to_nat n) (fifo_samples af)),
   firstn (Z.to_nat n) (fifo_samples af)).

(** Modelled from the spec: "append-write of a full frame's samples".  When
    the free capacity is too small the queue grows first, which may fail
    with the out-of-memory status and then leaves the queue as it was.  The
    result is the number of samples written, or the negative status. *)
Definition av_audio_fifo_write (w : World) (af : AVAudioFifo)
           (data : list sample) (n : Z) : Z * AVAudioFifo * World :=
  let written :=
    mkFifo (fifo_format af) (fifo_channels af)
           (Z.max (fifo_allocated af) (av_audio_fifo_size af + n))
           (fifo_samples af ++ firstn (Z.to_nat n) data) in
  if fifo_allocated af - av_audio_fifo_size af <? n then
    match try_alloc w with
    | (true, w1) => (n, written, w1)
    | (false, w1) => (AVERROR ENOMEM, af, w1)
    end
  else (n, written, w).

(** [av_audio_fifo_free] and [avfilter_unref_buffer] give an object back;
    the model records the call. *)
Definition av_audio_fifo_free (w : World) (af : AVAudioFifo) : World :=
  log_release (FifoFreed af) w.

Definition avfilter_unref_buffer (w : World) (b : AVFilterBufferRef) : World :=
  log_release (BufferUnref b) w.

(** ** The sink: libavfilter/buffersink.c *)

(** [uninit]. *)
Definition uninit (w : World) : World :=
  match audio_fifo (sink w) with
  | Some af => av_audio_fifo_free w af
  | None => w
  end.

(** [start_frame], the pad callback for video frames and audio samples.
    [av_assert0] aborts when its condition is false. *)
Definition start_frame (w : World) (buf : AVFilterBufferRef)
  : result (Z * World) :=
  match cur_buf (sink w) with
  | Some _ => Fault AssertFailed
  | None =>
      Done (0, with_link (set_link_cur_buf None (link w))
                 (with_sink (set_cur_buf (Some buf) (sink w)) w))
  end.

(** Modelled from the spec: the graph hands each frame to the pad of the
    sink: it stores the frame in [link->cur_buf] and calls the pad's
    callback. *)
Fixpoint deliver_all (bufs : list AVFilterBufferRef) (w : World)
  : result World :=
  match bufs with
  | [] => Done w
  | b :: rest =>
      match start_frame (with_link (set_link_cur_buf (Some b) (link w)) w) b with
      | Done (_, w1) => deliver_all rest w1
      | Fault f => Fault f
      end
  end.

(** Modelled from the spec: [ff_request_frame] of libavfilter/avfilter.c
    (not under src/): "asks upstream to produce and deliver one unit on the
    given link; ... returns an end-of-stream or error status if none is
    forthcoming". *)
Definition ff_request_frame (w : World) : result (Z * World) :=
  match upstream w with
  | [] => Done (AVERROR_EOF, w)
  | o :: rest =>
      match deliver_all (delivered o) (with_upstream rest w) with
      | Done w1 => Done (status o, w1)
      | Fault f => Fault f
      end
  end.

(** Modelled from the spec: [ff_poll_frame], the "non-consuming readiness
    query". *)
Definition ff_poll_frame (w : World) : Z := ready w.

(** [av_buffersink_read]. *)
Definition av_buffersink_read (w : World) (buf : bufptr)
  : result (Z * bufptr * World) :=
  match buf with
  | NullPtr => Done (ff_poll_frame w, NullPtr, w)
  | Cell old =>
      match ff_request_frame w with
      | Fault f => Fault f
      | Done (ret, w1) =>
          if ret <? 0 then Done (ret, Cell old, w1)
          else
            match cur_buf (sink w1) with
            | None => Done (AVERROR EINVAL, Cell old, w1)
            | Some b =>
                Done (0, Cell (Some b),
                      with_sink (set_cur_buf None (sink w1)) w1)
            end
      end
  end.

(** The time of [n] samples at the rate of the link, in its time base. *)
Definition samples_to_ticks (l : AVFilterLink) (n : Z) : Z :=
  av_rescale_q n (mkRational 1 (sample_rate l)) (time_base l).

(** [read_from_fifo]. *)
Definition read_from_fifo (w : World) (pbuf : bufptr) (n : Z)
  : result (Z * bufptr * World) :=
  match ff_get_audio_buffer w n with
  | (None, w1) => Done (AVERROR ENOMEM, pbuf, w1)
  | (Some buf, w1) =>
      match audio_fifo (sink w1) with
      | None => Fault BadDeref
      | Some af =>
          let (af1, data) := av_audio_fifo_read af n in
          let buf1 := mkBuf (next_pts (sink w1)) (nb_samples buf) data in
          let s1 :=
            set_next_pts (add64 (next_pts (sink w1))
                                (samples_to_ticks (link w1) n))
                         (set_audio_fifo (Some af1) (sink w1)) in
          match pbuf with
          | NullPtr => Fault BadDeref
          | Cell _ => Done (0, Cell (Some buf1), with_sink s1 w1)
          end
      end
  end.

(** The body of the loop of [av_buffersink_read_samples] after a frame
    has been pulled: the timestamp update, the write to the queue and the
    release of the frame.  The result is the status of the write. *)
Definition refill (w : World) (af : AVAudioFifo) (buf : AVFilterBufferRef)
  : Z * World :=
  let s1 :=
    if pts buf =? AV_NOPTS_VALUE then sink w
    else set_next_pts
           (sub64 (pts buf) (samples_to_ticks (link w) (av_audio_fifo_size af)))
           (sink w) in
  let w1 := with_sink s1 w in
  match av_audio_fifo_write w1 af (extended_data buf) (nb_samples buf) with
  | (ret, af1, w2) =>
      (ret, avfilter_unref_buffer
              (with_sink (set_audio_fifo (Some af1) (sink w2)) w2) buf)
  end.

(** The [while (ret >= 0)] loop of [av_buffersink_read_samples]; [fuel]
    bounds the number of iterations. *)
Fixpoint read_samples_loop (fuel : nat) (w : World) (pbuf : bufptr) (n : Z)
  : result (Z * bufptr * World) :=
  match fuel with
  | O => Fault OutOfFuel
  | S fuel' =>
      match audio_fifo (sink w) with
      | None => Fault BadDeref
      | Some af =>
          if n <=? av_audio_fifo_size af then read_from_fifo w pbuf n
          else
            match av_buffersink_read w (Cell None) with
            | Fault f => Fault f
            | Done (ret, buf, w1) =>
                match audio_fifo (sink w1) with
                | None => Fault BadDeref
                | Some af1 =>
                    if (ret =? AVERROR_EOF)
                       && negb (av_audio_fifo_size af1 =? 0)
                    then read_from_fifo w1 pbuf (av_audio_fifo_size af1)
                    else if ret <? 0 then Done (ret, pbuf, w1)
                    else
                      match buf with
                      | Cell (Some b) =>
                          let (ret1, w2) := refill w1 af1 b in
                          if 0 <=? ret1
                          then read_samples_loop fuel' w2 pbuf n
                          else Done (ret1, pbuf, w2)
                      | _ => Fault BadDeref
                      end
                end
            end
      end
  end.

(** [av_buffersink_read_samples].  An iteration of the loop that does not
    return has consumed one outcome of [upstream], so one more iteration
    than there are outcomes is enough. *)
Definition av_buffersink_read_samples (w : World) (pbuf : bufptr) (n : Z)
  : result (Z * bufptr * World) :=
  match audio_fifo (sink w) with
  | Some _ => read_samples_loop (S (length (upstream w))) w pbuf n
  | None =>
      let nb_channels :=
        av_get_channel_layout_nb_channels (channel_layout (link w)) in
      match av_audio_fifo_alloc w (format (link w)) nb_channels n with
      | (None, w1) => Done (AVERROR ENOMEM, pbuf, w1)
      | (Some af, w1) =>
          let w2 := with_sink (set_audio_fifo (Some af) (sink w1)) w1 in
          read_samples_loop (S (length (upstream w2))) w2 pbuf n
      end
  end.

(** ** The caller *)

(** A caller that asks for [n] samples again and again until a call fails,
    at most [calls] times.  The result is the frames it got, in order, and
    the status of the call that ended it. *)
Fixpoint read_all (calls : nat) (w : World) (n : Z)
  : result (list AVFilterBufferRef * Z * World) :=
  match calls with
  | O => Fault OutOfFuel
  | S calls' =>
      match av_buffersink_read_samples w (Cell None) n with
      | Fault f => Fault f
      | Done (ret, out, w1) =>
          if ret <? 0 then Done ([], ret, w1)
          else
            match out with
            | Cell (Some b) =>
                match read_all calls' w1 n with
                | Done (bs, r, w2) => Done (b :: bs, r, w2)
                | Fault f => Fault f
                end
            | _ => Fault BadDeref
            end
      end
  end.

(** ** Vocabulary of the statements *)

(** The samples the queue of the sink holds; none when it has no queue. *)
Definition fifo_contents (w : World) : list sample :=
  match audio_fifo (sink w) with
  | Some af => fifo_samples af
  | None => []
  end.

(** A request that delivers the frame [b] and succeeds. *)
Definition deliver_one (b : AVFilterBufferRef) : request_outcome :=
  mkOutcome [b] 0.

(** All samples of a list of frames, in order. *)
Definition flat (frames : list AVFilterBufferRef) : list sample :=
  concat (map extended_data frames).

Definition total_samples (frames : list AVFilterBufferRef) : Z :=
  fold_right Z.add 0 (map nb_samples frames).

(** No coming allocation fails. *)
Definition no_alloc_failure (w : World) : Prop :=
  forallb (fun ok : bool => ok) (allocs w) = true.

(** The sink between two calls of a caller that is fed the frames [rem]:
    the slot is empty, the queue holds [q], the graph will deliver [rem]
    one frame per request and then report end-of-stream. *)
Definition steady (w : World) (q : list sample)
           (rem : list AVFilterBufferRef) : Prop :=
  cur_buf (sink w) = None /\
  fifo_contents w = q /\
  upstream w = map deliver_one rem /\
  no_alloc_failure w.

(** The time base of the link holds [k] ticks per sample. *)
Definition ticks_per_sample (l : AVFilterLink) (k : Z) : Prop :=
  0 <= k /\
  0 < num (time_base l) * sample_rate l /\
  den (time_base l) = k * (num (time_base l) * sample_rate l).

(** Frames whose timestamps follow each other without gap or overlap, at
    [k] ticks per sample, the first one stamped [p]. *)
Fixpoint contiguous (k p : Z) (frames : list AVFilterBufferRef) : Prop :=
  match frames with
  | [] => True
  | b :: rest => pts b = p /\ contiguous k (p + k * nb_samples b) rest
  end.


(** What one call for [n] samples returns to a caller whose sink is
    [steady w q rem] before the call and [steady w' q' rem'] after it, with
    [c] the previous content of the destination.  Either no sample is left
    and the call reports end-of-stream, or it succeeds with the oldest
    samples, at most [n].  When the input is stamped without gap or overlap
    from the time [e] of the oldest sample left, the frame is stamped [e]
    and [next_pts] is the time of the sample after the frame. *)
Definition served (w : World) (q : list sample)
           (rem : list AVFilterBufferRef) (n : Z)
           (c : option AVFilterBufferRef) (ret : Z) (out : bufptr)
           (w' : World) (q' : list sample)
           (rem' : list AVFilterBufferRef) : Prop :=
  (q ++ flat rem = [] /\ ret = AVERROR_EOF /\ out = Cell c /\
   q' = [] /\ rem' = []) \/
  (q ++ flat rem <> [] /\ ret = 0 /\
   exists b,
     out = Cell (Some b) /\
     extended_data b = firstn (Z.to_nat n) (q ++ flat rem) /\
     wf_buf b /\
     q' ++ flat rem' = skipn (Z.to_nat n) (q ++ flat rem) /\
     forall k e,
       ticks_per_sample (link w) k ->
       contiguous k (e + k * Z.of_nat (length q)) rem ->
       (q <> [] -> next_pts (sink w) = e) ->
       INT64_MIN < e ->
       e + k * Z.of_nat (length (q ++ flat rem)) <= INT64_MAX ->
       pts b = e /\
       next_pts (sink w') = e + k * nb_samples b /\
       contiguous k (e + k * nb_samples b + k * Z.of_nat (length q')) rem').

(** A caller that pulls whole frames with [av_buffersink_read] again and
    again until a pull fails, at most [calls] times.  The result is the
    frames it got, in order, and the status of the pull that ended it. *)
Fixpoint pull_all (calls : nat) (w : World)
  : result (list AVFilterBufferRef * Z * World) :=
  match calls with
  | O => Fault OutOfFuel
  | S calls' =>
      match av_buffersink_read w (Cell None) with
      | Fault f => Fault f
      | Done (ret, out, w1) =>
          if ret <? 0 then Done ([], ret, w1)
          else
            match out with
            | Cell (Some b) =>
                match pull_all calls' w1 with
                | Done (bs, r, w2) => Done (b :: bs, r, w2)
                | Fault f => Fault f
                end
            | _ => Fault BadDeref
            end
      end
  end.

(** No frame in the slot or on its way from the graph has a timestamp. *)
Definition unstamped_input (w : World) : Prop :=
  (forall b, cur_buf (sink w) = Some b -> pts b = AV_NOPTS_VALUE) /\
  Forall (fun o => Forall (fun b => pts b = AV_NOPTS_VALUE) (delivered o))
         (upstream w).


(** Frames that start no earlier than [t] and do not overlap, at [k] ticks
    per sample: each one starts no earlier than the one before ends.  Gaps
    are allowed. *)
Fixpoint spaced (k t : Z) (frames : list AVFilterBufferRef) : Prop :=
  match frames with
  | [] => True
  | b :: rest => t <= pts b /\ spaced k (pts b + k * nb_samples b) rest
  end.

End Sink.

Arguments NullPtr {sample}.

Unset Implicit Arguments.

Arguments AVERROR_EOF : simpl never.
Arguments AV_NOPTS_VALUE : simpl never.
Arguments wrap64 : simpl never.

(** ** Concrete scenarios *)

Module Scenario.

(** A 48 kHz link whose time base is one tick per sample. *)
Definition link48k : AVFilterLink Z :=
  mkLink 1 3 48000 (mkRational 1 48000) None.

Definition frame (p : Z) (data : list Z) : AVFilterBufferRef Z :=
  mkBuf p (Z.of_nat (length data)) data.

(** A sink just created: empty slot, no queue. *)
Definition fresh (up : list (request_outcome Z)) (al : list bool) : World Z :=
  mkWorld (mkSink None None 0) link48k up 0 al [].

(** A sink in sample mode whose slot holds a frame that was never
    pulled. *)
Definition occupied : World Z :=
  mkWorld (mkSink (Some (frame 7 [1; 2])) (Some (mkFifo 1 2 4 [5])) 0)
          link48k [] 0 [] [].

(** A sink in sample mode whose queue holds [q]. *)
Definition queued (q : list Z) (np : Z) (up : list (request_outcome Z))
           (al : list bool) : World Z :=
  mkWorld (mkSink None (Some (mkFifo 1 2 4 q)) np) link48k up 0 al [].

(** The frames of 480, 500 and 20 samples of the spec's scenario, stamped
    without gap. *)
Definition three_frames : list (AVFilterBufferRef Z) :=
  [frame 0 (repeat 7 480); frame 480 (repeat 8 500); frame 980 (repeat 9 20)].

(** Two frames with increasing timestamps that overlap: the second one is
    stamped 1 although five samples come before it. *)
Definition overlapping : list (AVFilterBufferRef Z) :=
  [frame 0 [1; 2; 3; 4; 5]; frame 1 [6]].

(** Two frames with a gap between them: the second one is stamped 10
    although only two samples come before it. *)
Definition gapped : list (AVFilterBufferRef Z) :=
  [frame 0 [1; 2]; frame 10 [3; 4]].

(** Two frames without timestamps. *)
Definition unstamped : list (AVFilterBufferRef Z) :=
  [mkBuf AV_NOPTS_VALUE 2 [1; 2]; mkBuf AV_NOPTS_VALUE 1 [3]].

(** A request that delivers two frames at once. *)
Definition double_delivery : request_outcome Z :=
  mkOutcome [frame 0 [1]; frame 1 [2]] 0.




End Scenario.

(** * Properties *)

Section Properties.

Variable sample : Type.

Implicit Types (w : World sample) (b buf : AVFilterBufferRef sample).

(** ** Integers and constants *)

Lemma wrap64_in_range z : in_int64 z -> wrap64 z = z.
Proof.
  unfold in_int64, wrap64, INT64_MIN, INT64_MAX. intros H.
  rewrite Z.mod_small; lia.
Qed.

Lemma wrap64_range z : in_int64 (wrap64 z).
Proof.
  unfold in_int64, wrap64, INT64_MIN, INT64_MAX.
  pose proof (Z.mod_pos_bound (z + 2 ^ 63) (2 ^ 64) ltac:(lia)). lia.
Qed.

Lemma AVERROR_EOF_value : AVERROR_EOF = -541478725.
Proof. reflexivity. Qed.

Lemma AVERROR_EOF_neg : AVERROR_EOF < 0.
Proof. rewrite AVERROR_EOF_value. lia. Qed.

(** ** The single-slot hand-off *)

(** C9.  A delivery into the empty slot passes the assertion, returns 0,
    leaves the delivered frame in the slot and clears [link->cur_buf],
    touching nothing else; a delivery into an occupied slot is stopped by
    the assertion, so the slot is never overwritten. *)
Theorem start_frame_delivers w buf :
  (cur_buf (sink w) = None ->
   exists w',
     start_frame w buf = Done (0, w') /\
     cur_buf (sink w') = Some buf /\
     link_cur_buf (link w') = None /\
     audio_fifo (sink w') = audio_fifo (sink w) /\
     next_pts (sink w') = next_pts (sink w) /\
     upstream w' = upstream w /\
     released w' = released w) /\
  (forall old, cur_buf (sink w) = Some old ->
               start_frame w buf = Fault AssertFailed).
Proof.
  unfold start_frame. split.
  - intros ->. eexists. split; [reflexivity|]. simpl. tauto.
  - intros old ->. reflexivity.
Qed.

Lemma start_frame_keeps w buf r w' :
  start_frame w buf = Done (r, w') ->
  audio_fifo (sink w') = audio_fifo (sink w) /\
  next_pts (sink w') = next_pts (sink w) /\
  cur_buf (sink w') = Some buf /\
  upstream w' = upstream w /\ allocs w' = allocs w /\
  released w' = released w /\
  sample_rate (link w') = sample_rate (link w) /\
  time_base (link w') = time_base (link w).
Proof.
  unfold start_frame. destruct (cur_buf (sink w)); [discriminate|].
  intros H. inversion H; subst. simpl. tauto.
Qed.

Lemma deliver_all_keeps bufs : forall w w',
  deliver_all bufs w = Done w' ->
  audio_fifo (sink w') = audio_fifo (sink w) /\
  next_pts (sink w') = next_pts (sink w) /\
  upstream w' = upstream w /\ allocs w' = allocs w /\
  released w' = released w /\
  sample_rate (link w') = sample_rate (link w) /\
  time_base (link w') = time_base (link w).
Proof.
  induction bufs as [|b rest IH]; simpl; intros w w' H.
  - inversion H; subst. tauto.
  - destruct (start_frame _ b) as [[r w1]|f] eqn:E; [|discriminate].
    apply start_frame_keeps in E. apply IH in H. simpl in E.
    destruct E as (E1 & E2 & _ & E3 & E4 & E5 & E6 & E7).
    destruct H as (H1 & H2 & H3 & H4 & H5 & H6 & H7).
    repeat split; congruence.
Qed.

Lemma ff_request_frame_keeps w ret w' :
  ff_request_frame w = Done (ret, w') ->
  audio_fifo (sink w') = audio_fifo (sink w) /\
  next_pts (sink w') = next_pts (sink w) /\
  allocs w' = allocs w /\
  released w' = released w /\
  sample_rate (link w') = sample_rate (link w) /\
  time_base (link w') = time_base (link w) /\
  (0 <= ret -> S (length (upstream w')) = length (upstream w)).
Proof.
  unfold ff_request_frame. destruct (upstream w) as [|o rest] eqn:U.
  - intros H. inversion H; subst. pose proof AVERROR_EOF_neg.
    repeat split; auto; lia.
  - destruct (deliver_all _ _) as [w1|f] eqn:E; [|discriminate].
    intros H. inversion H; subst. apply deliver_all_keeps in E. simpl in E.
    destruct E as (E1 & E2 & E3 & E4 & E5 & E6 & E7).
    repeat split; try congruence. intros _. rewrite E3. reflexivity.
Qed.

(** C2.  A pull with a destination: a negative status of the request comes
    back as it is and the destination keeps its content; a request that
    succeeds with the slot still empty gives AVERROR(EINVAL); otherwise
    the pull succeeds, the destination holds the frame of the slot and the
    slot is empty. *)
Theorem av_buffersink_read_pull w old ret w1 :
  ff_request_frame w = Done (ret, w1) ->
  (ret < 0 ->
   av_buffersink_read w (Cell old) = Done (ret, Cell old, w1)) /\
  (0 <= ret -> cur_buf (sink w1) = None ->
   av_buffersink_read w (Cell old) = Done (AVERROR EINVAL, Cell old, w1)) /\
  (0 <= ret -> forall b, cur_buf (sink w1) = Some b ->
   exists w2,
     av_buffersink_read w (Cell old) = Done (0, Cell (Some b), w2) /\
     cur_buf (sink w2) = None /\
     w2 = with_sink (set_cur_buf None (sink w1)) w1).
Proof.
  intros H. unfold av_buffersink_read. rewrite H. repeat split.
  - intros L. apply Z.ltb_lt in L. rewrite L. reflexivity.
  - intros L E. apply Z.ltb_ge in L. rewrite L, E. reflexivity.
  - intros L b E. apply Z.ltb_ge in L. rewrite L, E.
    eexists. repeat split.
Qed.

Lemma av_buffersink_read_keeps w p ret p' w' :
  av_buffersink_read w p = Done (ret, p', w') ->
  audio_fifo (sink w') = audio_fifo (sink w) /\
  next_pts (sink w') = next_pts (sink w) /\
  allocs w' = allocs w /\
  released w' = released w /\
  sample_rate (link w') = sample_rate (link w) /\
  time_base (link w') = time_base (link w).
Proof.
  unfold av_buffersink_read. destruct p as [|old].
  - intros H. inversion H; subst. tauto.
  - destruct (ff_request_frame w) as [[r w1]|f] eqn:E; [|discriminate].
    apply ff_request_frame_keeps in E.
    destruct E as (E1 & E2 & E3 & E4 & E5 & E6 & _).
    destruct (r <? 0).
    + intros H. inversion H; subst. tauto.
    + destruct (cur_buf (sink w1)); intros H; inversion H; subst; simpl; tauto.
Qed.

(** ** Teardown *)

(** C5, as the code has it.  [uninit] frees the queue when there is one
    and releases nothing else; with no queue it leaves everything as it
    was.  In both cases the private context, the slot included, is left
    untouched. *)
Theorem uninit_frees_queue w :
  (forall af, audio_fifo (sink w) = Some af ->
              released (uninit w) = released w ++ [FifoFreed af]) /\
  (audio_fifo (sink w) = None -> uninit w = w) /\
  sink (uninit w) = sink w.
Proof.
  unfold uninit. repeat split.
  - intros af ->. reflexivity.
  - intros ->. reflexivity.
  - destruct (audio_fifo (sink w)); reflexivity.
Qed.

(** ** Time arithmetic *)

Lemma av_rescale_q_zero bq cq :
  0 <= num cq * den bq -> av_rescale_q 0 bq cq = 0.
Proof.
  intros H. unfold av_rescale_q, av_rescale_rnd_near. simpl.
  destruct (Z.eq_dec (num cq * den bq) 0) as [E|E].
  - rewrite E. reflexivity.
  - apply Z.div_small. split.
    + apply Z.div_pos; lia.
    + apply Z.div_lt; lia.
Qed.

(** The rescaled value is the integer nearest to the exact quotient
    [a * b / c]: it is off by at most half a tick. *)
Lemma av_rescale_q_nearest a bq cq :
  0 <= a -> 0 < num cq * den bq ->
  2 * Z.abs (av_rescale_q a bq cq * (num cq * den bq) - a * (num bq * den cq))
  <= num cq * den bq.
Proof.
  intros Ha Hc. unfold av_rescale_q, av_rescale_rnd_near.
  destruct (a <? 0) eqn:E; [apply Z.ltb_lt in E; lia|].
  set (c := num cq * den bq) in *. set (x := a * (num bq * den cq)).
  pose proof (Z.div_mod (x + c / 2) c ltac:(lia)) as D.
  pose proof (Z.mod_pos_bound (x + c / 2) c Hc) as M.
  pose proof (Z.div_mod c 2 ltac:(lia)) as D2.
  pose proof (Z.mod_pos_bound c 2 ltac:(lia)) as M2.
  lia.
Qed.

Lemma samples_to_ticks_exact (l : AVFilterLink sample) k n :
  ticks_per_sample l k -> samples_to_ticks l n = k * n.
Proof.
  intros (Hk & Hc & Hd). unfold samples_to_ticks, av_rescale_q.
  cbn [num den]. rewrite Hd, Z.mul_1_l. set (c := num (time_base l) * sample_rate l) in *.
  assert (Hh : c / 2 / c = 0).
  { apply Z.div_small. split; [apply Z.div_pos; lia | apply Z.div_lt; lia]. }
  unfold av_rescale_rnd_near. destruct (n <? 0).
  - replace (- n * (k * c) + c / 2) with (c / 2 + (- n * k) * c) by lia.
    rewrite Z.div_add by lia. lia.
  - replace (n * (k * c) + c / 2) with (c / 2 + (n * k) * c) by lia.
    rewrite Z.div_add by lia. lia.
Qed.

(** ** The allocator *)

Lemma try_alloc_keeps w :
  sink (snd (try_alloc w)) = sink w /\
  link (snd (try_alloc w)) = link w /\
  upstream (snd (try_alloc w)) = upstream w /\
  released (snd (try_alloc w)) = released w.
Proof.
  unfold try_alloc. destruct (allocs w); simpl; tauto.
Qed.

Lemma try_alloc_no_failure w :
  no_alloc_failure w ->
  fst (try_alloc w) = true /\ no_alloc_failure (snd (try_alloc w)).
Proof.
  unfold no_alloc_failure, try_alloc.
  destruct (allocs w) as [|ok rest] eqn:E; simpl.
  - rewrite E. auto.
  - intros H. apply andb_true_iff in H. tauto.
Qed.

(** ** Draining the queue *)

(** What [read_from_fifo] does when the frame can be allocated. *)
Lemma read_from_fifo_ok w c n af :
  fst (try_alloc w) = true ->
  audio_fifo (sink w) = Some af ->
  read_from_fifo w (Cell c) n =
  Done (0,
        Cell (Some (mkBuf (next_pts (sink w)) n
                          (firstn (Z.to_nat n) (fifo_samples af)))),
        with_sink
          (mkSink (cur_buf (sink w))
                  (Some (mkFifo (fifo_format af) (fifo_channels af)
                                (fifo_allocated af)
                                (skipn (Z.to_nat n) (fifo_samples af))))
                  (add64 (next_pts (sink w)) (samples_to_ticks (link w) n)))
          (snd (try_alloc w))).
Proof.
  intros A F. unfold read_from_fifo, ff_get_audio_buffer.
  destruct (try_alloc_keeps w) as (K1 & K2 & _).
  destruct (try_alloc w) as [ok w1]. simpl in *. subst ok.
  rewrite K1, K2, F. reflexivity.
Qed.

Lemma read_from_fifo_failed w pbuf n :
  fst (try_alloc w) = false ->
  read_from_fifo w pbuf n = Done (AVERROR ENOMEM, pbuf, snd (try_alloc w)).
Proof.
  intros A. unfold read_from_fifo, ff_get_audio_buffer.
  destruct (try_alloc w) as [ok w1]. simpl in *. subst ok. reflexivity.
Qed.

(** C6.  A full-size drain whose frame can be allocated succeeds; the frame
    carries [n] samples, the oldest of the queue, and the timestamp
    [next_pts]; [next_pts] moves on by
    [av_rescale_q n (1 / sample_rate) time_base], an [int64_t] addition
    that is the exact sum when the sum fits.  The increment is computed on
    integers and is the integer nearest to
    [n * den time_base / (num time_base * sample_rate)]. *)
Theorem full_drain_timestamp fuel w c n af :
  audio_fifo (sink w) = Some af ->
  n <= av_audio_fifo_size af ->
  fst (try_alloc w) = true ->
  let step :=
    av_rescale_q n (mkRational 1 (sample_rate (link w))) (time_base (link w)) in
  exists b w',
    read_samples_loop (S fuel) w (Cell c) n = Done (0, Cell (Some b), w') /\
    pts b = next_pts (sink w) /\
    nb_samples b = n /\
    extended_data b = firstn (Z.to_nat n) (fifo_samples af) /\
    fifo_contents w' = skipn (Z.to_nat n) (fifo_samples af) /\
    next_pts (sink w') = add64 (next_pts (sink w)) step /\
    (in_int64 (next_pts (sink w) + step) ->
     next_pts (sink w') = next_pts (sink w) + step) /\
    (0 <= n -> 0 < num (time_base (link w)) * sample_rate (link w) ->
     2 * Z.abs (step * (num (time_base (link w)) * sample_rate (link w))
                - n * den (time_base (link w)))
     <= num (time_base (link w)) * sample_rate (link w)).
Proof.
  intros F L A step. simpl. rewrite F.
  apply Z.leb_le in L. rewrite L.
  rewrite (read_from_fifo_ok w c n af A F).
  eexists. eexists. split; [reflexivity|]. simpl.
  repeat split.
  - intros R. unfold add64. apply wrap64_in_range. exact R.
  - intros Hn Hc.
    pose proof (av_rescale_q_nearest n (mkRational 1 (sample_rate (link w)))
                  (time_base (link w)) Hn Hc) as N.
    cbn [num den] in N. fold step in N. rewrite Z.mul_1_l in N. exact N.
Qed.

(** ** Refilling the queue *)

Lemma av_audio_fifo_write_effect w af data n :
  match av_audio_fifo_write w af data n with
  | (ret, af1, w') =>
      sink w' = sink w /\ link w' = link w /\ upstream w' = upstream w /\
      released w' = released w /\
      (ret < 0 \/ ret = n) /\
      (no_alloc_failure w -> no_alloc_failure w' /\ ret = n) /\
      exists added,
        fifo_samples af1 = fifo_samples af ++ added /\
        (0 <= ret -> added = firstn (Z.to_nat n) data)
  end.
Proof.
  unfold av_audio_fifo_write.
  destruct (fifo_allocated af - av_audio_fifo_size af <? n).
  - pose proof (try_alloc_keeps w) as (K1 & K2 & K3 & K4).
    pose proof (try_alloc_no_failure w) as NF.
    destruct (try_alloc w) as [[|] w2]; simpl in *.
    + split; [assumption|]. split; [assumption|]. split; [assumption|].
      split; [assumption|]. split; [now right|]. split; [tauto|].
      eexists. split; [reflexivity|]. auto.
    + split; [assumption|]. split; [assumption|]. split; [assumption|].
      split; [assumption|]. split; [left; unfold AVERROR, ENOMEM; lia|].
      split.
      * intros A. apply NF in A. destruct A; discriminate.
      * exists []. rewrite app_nil_r. split; [reflexivity|].
        unfold AVERROR, ENOMEM. lia.
  - simpl. split; [reflexivity|]. split; [reflexivity|].
    split; [reflexivity|]. split; [reflexivity|]. split; [now right|].
    split; [tauto|]. eexists. split; [reflexivity|]. auto.
Qed.

Lemma refill_effect w af buf :
  let ret := fst (refill w af buf) in
  let w' := snd (refill w af buf) in
  next_pts (sink w') =
    (if pts buf =? AV_NOPTS_VALUE then next_pts (sink w)
     else sub64 (pts buf) (samples_to_ticks (link w) (av_audio_fifo_size af))) /\
  cur_buf (sink w') = cur_buf (sink w) /\
  upstream w' = upstream w /\
  link w' = link w /\
  released w' = released w ++ [BufferUnref buf] /\
  (ret < 0 \/ ret = nb_samples buf) /\
  (no_alloc_failure w -> no_alloc_failure w' /\ ret = nb_samples buf) /\
  exists af1 added,
    audio_fifo (sink w') = Some af1 /\
    fifo_samples af1 = fifo_samples af ++ added /\
    (0 <= ret ->
     added = firstn (Z.to_nat (nb_samples buf)) (extended_data buf)).
Proof.
  unfold refill.
  set (s1 := if pts buf =? AV_NOPTS_VALUE then sink w else _).
  assert (N1 : next_pts s1 =
               if pts buf =? AV_NOPTS_VALUE then next_pts (sink w)
               else sub64 (pts buf)
                      (samples_to_ticks (link w) (av_audio_fifo_size af))).
  { subst s1. destruct (pts buf =? AV_NOPTS_VALUE); reflexivity. }
  assert (C1 : cur_buf s1 = cur_buf (sink w)).
  { subst s1. destruct (pts buf =? AV_NOPTS_VALUE); reflexivity. }
  clearbody s1.
  pose proof (av_audio_fifo_write_effect (with_sink s1 w) af
                (extended_data buf) (nb_samples buf)) as E.
  destruct (av_audio_fifo_write _ af _ _) as [[ret af1] w2]. simpl in *.
  destruct E as (K1 & K2 & K3 & K4 & R & NF & added & A1 & A2).
  rewrite K1, K2, K3, K4. simpl.
  split; [assumption|]. split; [assumption|]. split; [reflexivity|].
  split; [reflexivity|]. split; [reflexivity|]. split; [assumption|].
  split; [exact NF|].
  exists af1, added. auto.
Qed.

(** The loop, unfolded once. *)
Lemma read_samples_loop_S fuel w pbuf n :
  read_samples_loop (S fuel) w pbuf n =
  match audio_fifo (sink w) with
  | None => Fault BadDeref
  | Some af =>
      if n <=? av_audio_fifo_size af then read_from_fifo w pbuf n
      else
        match av_buffersink_read w (Cell None) with
        | Fault f => Fault f
        | Done (ret, buf, w1) =>
            match audio_fifo (sink w1) with
            | None => Fault BadDeref
            | Some af1 =>
                if (ret =? AVERROR_EOF) && negb (av_audio_fifo_size af1 =? 0)
                then read_from_fifo w1 pbuf (av_audio_fifo_size af1)
                else if ret <? 0 then Done (ret, pbuf, w1)
                else
                  match buf with
                  | Cell (Some b) =>
                      let (ret1, w2) := refill w1 af1 b in
                      if 0 <=? ret1 then read_samples_loop fuel w2 pbuf n
                      else Done (ret1, pbuf, w2)
                  | _ => Fault BadDeref
                  end
            end
        end
  end.
Proof. reflexivity. Qed.

(** One iteration of the loop that pulls a frame: the rest of the call
    runs from the state [refill] leaves. *)
Lemma read_samples_loop_pull fuel w pbuf n af ret b w1 :
  audio_fifo (sink w) = Some af ->
  av_audio_fifo_size af < n ->
  av_buffersink_read w (Cell None) = Done (ret, Cell (Some b), w1) ->
  0 <= ret ->
  read_samples_loop (S fuel) w pbuf n =
  (if 0 <=? fst (refill w1 af b)
   then read_samples_loop fuel (snd (refill w1 af b)) pbuf n
   else Done (fst (refill w1 af b), pbuf, snd (refill w1 af b))).
Proof.
  intros F L R P. rewrite read_samples_loop_S, F.
  apply Z.leb_gt in L. rewrite L, R.
  destruct (av_buffersink_read_keeps _ _ _ _ _ R) as (K & _). rewrite K, F.
  pose proof AVERROR_EOF_neg.
  replace (ret =? AVERROR_EOF) with false by (symmetry; apply Z.eqb_neq; lia).
  replace (ret <? 0) with false by (symmetry; apply Z.ltb_ge; lia).
  simpl. destruct (refill w1 af b). reflexivity.
Qed.

(** C4.  In an iteration that pulled the frame [b], with [af] the queue
    before the samples of [b] are appended: when [b] has a timestamp,
    [next_pts] becomes that timestamp minus
    [av_rescale_q (size of af) (1 / sample_rate) time_base] (an [int64_t]
    subtraction, the exact difference when it fits); when [b] has none,
    [next_pts] keeps its value.  Then the samples of [b] go to the end of
    the queue and the call goes on from there. *)
Theorem refill_resync fuel w pbuf n af ret b w1 :
  audio_fifo (sink w) = Some af ->
  av_audio_fifo_size af < n ->
  av_buffersink_read w (Cell None) = Done (ret, Cell (Some b), w1) ->
  0 <= ret ->
  let before :=
    av_rescale_q (av_audio_fifo_size af)
                 (mkRational 1 (sample_rate (link w))) (time_base (link w)) in
  exists ret1 w2,
    refill w1 af b = (ret1, w2) /\
    read_samples_loop (S fuel) w pbuf n =
      (if 0 <=? ret1 then read_samples_loop fuel w2 pbuf n
       else Done (ret1, pbuf, w2)) /\
    (pts b <> AV_NOPTS_VALUE ->
     next_pts (sink w2) = sub64 (pts b) before /\
     (in_int64 (pts b - before) -> next_pts (sink w2) = pts b - before)) /\
    (pts b = AV_NOPTS_VALUE -> next_pts (sink w2) = next_pts (sink w)) /\
    (0 <= ret1 ->
     fifo_contents w2 =
     fifo_samples af ++ firstn (Z.to_nat (nb_samples b)) (extended_data b)).
Proof.
  intros F L R P before.
  pose proof (read_samples_loop_pull fuel w pbuf n af ret b w1 F L R P) as Step.
  destruct (av_buffersink_read_keeps _ _ _ _ _ R) as (_ & KP & _ & _ & KR & KT).
  pose proof (refill_effect w1 af b) as E. simpl in E.
  destruct (refill w1 af b) as [ret1 w2]. simpl in *.
  destruct E as (EN & _ & _ & _ & _ & _ & _ & af1 & added & EF & ES & EA).
  exists ret1, w2. split; [reflexivity|]. split; [exact Step|].
  unfold samples_to_ticks in EN. rewrite KR, KT in EN. fold before in EN.
  split; [|split].
  - intros D. apply Z.eqb_neq in D. rewrite D in EN. split; [exact EN|].
    intros I. rewrite EN. apply wrap64_in_range. exact I.
  - intros D. apply Z.eqb_eq in D. rewrite D in EN. congruence.
  - intros W. unfold fifo_contents. rewrite EF, ES, (EA W). reflexivity.
Qed.

(** ** End of stream *)

(** C3.  An iteration whose pull reports end-of-stream.  With an empty
    queue the call returns that status and writes no frame.  With a
    non-empty queue (and the frame allocated) it succeeds with one frame
    that holds all queued samples, fewer than [n], stamped [next_pts],
    and [next_pts] moves on by the time of those samples; the queue is
    empty afterwards. *)
Theorem eof_drain fuel w c n af cell w1 :
  audio_fifo (sink w) = Some af ->
  av_audio_fifo_size af < n ->
  av_buffersink_read w (Cell None) = Done (AVERROR_EOF, cell, w1) ->
  (fifo_samples af = [] ->
   read_samples_loop (S fuel) w (Cell c) n = Done (AVERROR_EOF, Cell c, w1) /\
   fifo_contents w1 = []) /\
  (fifo_samples af <> [] -> fst (try_alloc w1) = true ->
   exists b w',
     read_samples_loop (S fuel) w (Cell c) n = Done (0, Cell (Some b), w') /\
     extended_data b = fifo_samples af /\
     nb_samples b = av_audio_fifo_size af /\
     0 < nb_samples b < n /\
     pts b = next_pts (sink w) /\
     fifo_contents w' = [] /\
     next_pts (sink w') =
       add64 (next_pts (sink w))
             (av_rescale_q (av_audio_fifo_size af)
                           (mkRational 1 (sample_rate (link w)))
                           (time_base (link w)))).
Proof.
  intros F L R.
  destruct (av_buffersink_read_keeps _ _ _ _ _ R) as (KF & KP & _ & _ & KR & KT).
  rewrite read_samples_loop_S, F.
  apply Z.leb_gt in L. rewrite L, R, KF, F, Z.eqb_refl. apply Z.leb_gt in L.
  unfold av_audio_fifo_size in *. split.
  - intros E. rewrite E. simpl.
    split; [reflexivity|]. unfold fifo_contents. rewrite KF, F. exact E.
  - intros E A.
    assert (Hlen : 0 < Z.of_nat (length (fifo_samples af))).
    { destruct (fifo_samples af); [congruence | simpl; lia]. }
    replace (Z.of_nat (length (fifo_samples af)) =? 0) with false
      by (symmetry; apply Z.eqb_neq; lia).
    simpl. rewrite <- KF in F.
    rewrite (read_from_fifo_ok w1 c _ af A F).
    eexists. eexists. split; [reflexivity|]. simpl.
    rewrite Nat2Z.id, firstn_all, skipn_all.
    unfold samples_to_ticks, fifo_contents. simpl.
    rewrite KP, KR, KT. repeat split; auto; lia.
Qed.

(** ** Failures *)

Lemma read_from_fifo_result w pbuf n ret out w' :
  read_from_fifo w pbuf n = Done (ret, out, w') ->
  ret = 0 \/ (out = pbuf /\ sink w' = sink w).
Proof.
  unfold read_from_fifo, ff_get_audio_buffer.
  pose proof (try_alloc_keeps w) as (K & _).
  destruct (try_alloc w) as [[|] w1]; simpl in *.
  - destruct (audio_fifo (sink w1)); [|discriminate].
    destruct pbuf; [discriminate|]. intros H. inversion H. now left.
  - intros H. inversion H; subst. right. auto.
Qed.

(** A call of the loop that fails has written nothing to the destination
    and has removed nothing from the queue. *)
Lemma read_samples_loop_failure fuel : forall w pbuf n ret out w',
  read_samples_loop fuel w pbuf n = Done (ret, out, w') ->
  ret < 0 ->
  out = pbuf /\ exists added, fifo_contents w' = fifo_contents w ++ added.
Proof.
  induction fuel as [|fuel IH]; intros w pbuf n ret out w' H Neg.
  - discriminate.
  - rewrite read_samples_loop_S in H.
    destruct (audio_fifo (sink w)) as [af|] eqn:F; [|discriminate].
    assert (Drain : forall w0 m,
               sink w0 = sink w \/ audio_fifo (sink w0) = audio_fifo (sink w) ->
               read_from_fifo w0 pbuf m = Done (ret, out, w') ->
               out = pbuf /\
               exists added, fifo_contents w' = fifo_contents w ++ added).
    { intros w0 m S0 D. apply read_from_fifo_result in D.
      destruct D as [D|(D1 & D2)]; [lia|]. split; [assumption|].
      exists []. rewrite app_nil_r. unfold fifo_contents. rewrite D2.
      destruct S0 as [S0|S0]; rewrite S0; reflexivity. }
    destruct (n <=? av_audio_fifo_size af).
    { eapply Drain; [|exact H]; auto. }
    destruct (av_buffersink_read w (Cell None)) as [[[r buf] w1]|f] eqn:R;
      [|discriminate].
    destruct (av_buffersink_read_keeps _ _ _ _ _ R) as (KF & _).
    rewrite KF, F in H.
    destruct ((r =? AVERROR_EOF) && negb (av_audio_fifo_size af =? 0)).
    { eapply Drain; [|exact H]; auto. }
    destruct (r <? 0).
    { inversion H; subst. split; [reflexivity|]. exists [].
      rewrite app_nil_r. unfold fifo_contents. rewrite KF. reflexivity. }
    destruct buf as [|[b|]]; try discriminate.
    pose proof (refill_effect w1 af b) as E. simpl in E.
    destruct (refill w1 af b) as [ret1 w2]. simpl in E.
    destruct E as (_ & _ & _ & _ & _ & _ & _ & af1 & added & EF & ES & _).
    assert (C2 : fifo_contents w2 = fifo_contents w ++ added).
    { unfold fifo_contents. rewrite EF, F. exact ES. }
    destruct (0 <=? ret1).
    + destruct (IH _ _ _ _ _ _ H Neg) as (O & more & M). split; [assumption|].
      exists (added ++ more). rewrite M, C2, app_assoc. reflexivity.
    + inversion H; subst. split; [reflexivity|]. exists added. exact C2.
Qed.

(** C7.  A call that fails with a status other than end-of-stream and
    invalid-state leaves the destination alone and every sample that was
    queued before the call at the head of the queue, in order: the queue
    after the call is the queue before it, followed by what the call
    appended. *)
Theorem failed_read_keeps_queue w pbuf n ret out w' :
  av_buffersink_read_samples w pbuf n = Done (ret, out, w') ->
  ret < 0 -> ret <> AVERROR_EOF -> ret <> AVERROR EINVAL ->
  out = pbuf /\ exists added, fifo_contents w' = fifo_contents w ++ added.
Proof.
  intros H Neg _ _. unfold av_buffersink_read_samples in H.
  destruct (audio_fifo (sink w)) as [af|] eqn:F.
  - eapply read_samples_loop_failure; eassumption.
  - unfold av_audio_fifo_alloc in H.
    pose proof (try_alloc_keeps w) as (K & _).
    destruct (try_alloc w) as [[|] w1]; simpl in K.
    + apply read_samples_loop_failure in H; [|assumption].
      destruct H as (O & added & A). split; [assumption|].
      exists added. rewrite A. unfold fifo_contents. simpl. rewrite F.
      reflexivity.
    + inversion H; subst. split; [reflexivity|]. exists [].
      unfold fifo_contents. rewrite K, F. reflexivity.
Qed.

(** ** Termination of the loop *)

Lemma av_buffersink_read_consumes w old ret p' w' :
  av_buffersink_read w (Cell old) = Done (ret, p', w') ->
  0 <= ret -> S (length (upstream w')) = length (upstream w).
Proof.
  unfold av_buffersink_read.
  destruct (ff_request_frame w) as [[r w1]|f] eqn:E; [|discriminate].
  apply ff_request_frame_keeps in E.
  destruct E as (_ & _ & _ & _ & _ & _ & U).
  destruct (r <? 0) eqn:L.
  - intros H. inversion H; subst. apply Z.ltb_lt in L. lia.
  - apply Z.ltb_ge in L. destruct (cur_buf (sink w1)); intros H; inversion H;
      subst; simpl; auto.
Qed.

(** One more iteration than the graph has outcomes left is enough: the
    loop never uses up that bound. *)
Lemma read_samples_loop_terminates fuel : forall w pbuf n,
  (length (upstream w) < fuel)%nat ->
  read_samples_loop fuel w pbuf n <> Fault OutOfFuel.
Proof.
  induction fuel as [|fuel IH]; intros w pbuf n Len; [inversion Len|].
  rewrite read_samples_loop_S.
  assert (Drain : forall w0 m, read_from_fifo w0 pbuf m <> Fault OutOfFuel).
  { intros w0 m. unfold read_from_fifo.
    destruct (ff_get_audio_buffer w0 m) as [[b|] w1]; [|discriminate].
    destruct (audio_fifo (sink w1)); [|discriminate].
    destruct pbuf; discriminate. }
  destruct (audio_fifo (sink w)) as [af|]; [|discriminate].
  destruct (n <=? av_audio_fifo_size af); [apply Drain|].
  destruct (av_buffersink_read w (Cell None)) as [[[r buf] w1]|f] eqn:R.
  - destruct (audio_fifo (sink w1)) as [af1|]; [|discriminate].
    destruct ((r =? AVERROR_EOF) && negb (av_audio_fifo_size af1 =? 0));
      [apply Drain|].
    destruct (r <? 0) eqn:L; [discriminate|]. apply Z.ltb_ge in L.
    destruct buf as [|[b|]]; try discriminate.
    pose proof (refill_effect w1 af1 b) as E. simpl in E.
    destruct (refill w1 af1 b) as [ret1 w2]. simpl in E.
    destruct E as (_ & _ & U & _).
    apply av_buffersink_read_consumes in R; [|assumption].
    destruct (0 <=? ret1); [|discriminate].
    apply IH. rewrite U. lia.
  - unfold av_buffersink_read in R.
    destruct (ff_request_frame w) as [[r w1]|f0] eqn:E.
    + destruct (r <? 0); [discriminate|].
      destruct (cur_buf (sink w1)); discriminate.
    + inversion R; subst. unfold ff_request_frame in E.
      destruct (upstream w) as [|o rest]; [discriminate|].
      destruct (deliver_all (delivered o) _) as [w1|f1] eqn:D; [discriminate|].
      inversion E; subst. clear - D.
      revert D. generalize (with_upstream rest w).
      induction (delivered o) as [|b l IHl]; simpl; intros w0 D;
        [discriminate|].
      unfold start_frame in D. simpl in D.
      destruct (cur_buf (sink w0)).
      * inversion D. discriminate.
      * apply IHl in D. exact D.
Qed.

Lemma av_buffersink_read_samples_terminates w pbuf n :
  av_buffersink_read_samples w pbuf n <> Fault OutOfFuel.
Proof.
  unfold av_buffersink_read_samples.
  destruct (audio_fifo (sink w)).
  - apply read_samples_loop_terminates. lia.
  - destruct (av_audio_fifo_alloc _ _ _ _) as [[af|] w1]; [|discriminate].
    apply read_samples_loop_terminates. lia.
Qed.

(** ** A request for no sample *)

Lemma no_alloc_failure_with_sink s w :
  no_alloc_failure (with_sink s w) <-> no_alloc_failure w.
Proof. reflexivity. Qed.

(** C10.  A request for 0 samples, when the allocations succeed, returns
    at once a frame of no sample stamped [next_pts]: no request goes to the
    graph, the slot, [next_pts] and the samples of the queue stay as they
    were. *)
Theorem zero_sample_request w c :
  no_alloc_failure w ->
  in_int64 (next_pts (sink w)) ->
  0 < num (time_base (link w)) * sample_rate (link w) ->
  exists b w',
    av_buffersink_read_samples w (Cell c) 0 = Done (0, Cell (Some b), w') /\
    nb_samples b = 0 /\
    extended_data b = [] /\
    pts b = next_pts (sink w) /\
    upstream w' = upstream w /\
    cur_buf (sink w') = cur_buf (sink w) /\
    next_pts (sink w') = next_pts (sink w) /\
    fifo_contents w' = fifo_contents w.
Proof.
  intros NF I L.
  assert (T0 : forall l : AVFilterLink sample,
             0 < num (time_base l) * sample_rate l ->
             samples_to_ticks l 0 = 0).
  { intros l Hl. unfold samples_to_ticks. apply av_rescale_q_zero.
    cbn [num den]. lia. }
  assert (Drain : forall w0 af,
             no_alloc_failure w0 -> audio_fifo (sink w0) = Some af ->
             next_pts (sink w0) = next_pts (sink w) ->
             link w0 = link w ->
             exists b w',
               read_samples_loop (S (length (upstream w0))) w0 (Cell c) 0
               = Done (0, Cell (Some b), w') /\
               nb_samples b = 0 /\ extended_data b = [] /\
               pts b = next_pts (sink w) /\
               upstream w' = upstream w0 /\
               cur_buf (sink w') = cur_buf (sink w0) /\
               next_pts (sink w') = next_pts (sink w) /\
               fifo_contents w' = fifo_samples af).
  { intros w0 af NF0 F0 P0 L0.
    destruct (try_alloc_no_failure w0 NF0) as (A & _).
    destruct (try_alloc_keeps w0) as (_ & _ & KU & _).
    rewrite read_samples_loop_S, F0.
    replace (0 <=? av_audio_fifo_size af) with true
      by (symmetry; apply Z.leb_le; unfold av_audio_fifo_size; lia).
    rewrite (read_from_fifo_ok w0 c 0 af A F0).
    eexists. eexists. split; [reflexivity|]. simpl.
    rewrite L0, (T0 _ L), P0. unfold add64. rewrite Z.add_0_r.
    rewrite (wrap64_in_range _ I). repeat split; auto. }
  unfold av_buffersink_read_samples.
  destruct (audio_fifo (sink w)) as [af|] eqn:F.
  - destruct (Drain w af NF F eq_refl eq_refl)
      as (b & w' & D & D1 & D2 & D3 & D4 & D5 & D6 & D7).
    exists b, w'. unfold fifo_contents at 2. rewrite F. auto 10.
  - unfold av_audio_fifo_alloc.
    destruct (try_alloc_no_failure w NF) as (A & NF1).
    destruct (try_alloc_keeps w) as (KS & KL & KU & _).
    destruct (try_alloc w) as [ok w1]. simpl in A, NF1, KS, KL, KU. subst ok.
    match goal with
    | |- context [read_samples_loop _ ?w2 _ _] =>
        destruct (Drain w2 (mkFifo (format (link w))
                     (av_get_channel_layout_nb_channels
                        (channel_layout (link w))) 0 [])) as
          (b & w' & D & D1 & D2 & D3 & D4 & D5 & D6 & D7)
    end.
    + apply no_alloc_failure_with_sink. exact NF1.
    + reflexivity.
    + simpl. rewrite KS. reflexivity.
    + simpl. exact KL.
    + exists b, w'. simpl in D4, D5. rewrite KS in D5.
      unfold fifo_contents at 2. rewrite F. rewrite KU in D4. auto 10.
Qed.

(** ** A well-behaved graph: one frame per request, then end-of-stream *)

Lemma flat_cons b (l : list (AVFilterBufferRef sample)) :
  flat (b :: l) = extended_data b ++ flat l.
Proof. reflexivity. Qed.

Lemma total_samples_flat (l : list (AVFilterBufferRef sample)) :
  Forall (@wf_buf sample) l -> total_samples l = Z.of_nat (length (flat l)).
Proof.
  induction 1 as [|b l Hb _ IH]; [reflexivity|].
  rewrite flat_cons, length_app, Nat2Z.inj_add. unfold total_samples in *.
  simpl. rewrite IH, Hb. reflexivity.
Qed.

Lemma steady_fifo w q rem af :
  steady w q rem -> audio_fifo (sink w) = Some af -> fifo_samples af = q.
Proof.
  intros (_ & Q & _) F. unfold fifo_contents in Q. rewrite F in Q. exact Q.
Qed.

(** A pull from a steady sink with a frame to come. *)
Lemma pull_steady w q b rem :
  steady w q (b :: rem) ->
  exists w1,
    av_buffersink_read w (Cell None) = Done (0, Cell (Some b), w1) /\
    steady w1 q rem /\
    sink w1 = sink w /\
    sample_rate (link w1) = sample_rate (link w) /\
    time_base (link w1) = time_base (link w).
Proof.
  destruct w as [[cb fifo np] l up rd al rel].
  unfold steady, fifo_contents, no_alloc_failure. simpl.
  intros (-> & Q & -> & NF).
  unfold av_buffersink_read, ff_request_frame. simpl.
  eexists. split; [reflexivity|]. simpl. auto 10.
Qed.

(** A call that finds enough samples in the queue. *)
Lemma full_steady fuel w q rem af c N :
  0 < N -> steady w q rem -> audio_fifo (sink w) = Some af ->
  N <= Z.of_nat (length q) ->
  exists ret out w' q' rem',
    read_samples_loop (S fuel) w (Cell c) N = Done (ret, out, w') /\
    steady w' q' rem' /\ rem' = rem /\
    sample_rate (link w') = sample_rate (link w) /\
    time_base (link w') = time_base (link w) /\
    served w q rem N c ret out w' q' rem'.
Proof.
  intros HN St F Full. pose proof (steady_fifo _ _ _ _ St F) as Q.
  destruct St as (CB & _ & UP & NF).
  destruct (try_alloc_no_failure w NF) as (A & NF1).
  destruct (try_alloc_keeps w) as (KS & KL & KU & _).
  rewrite read_samples_loop_S, F.
  replace (N <=? av_audio_fifo_size af) with true
    by (symmetry; apply Z.leb_le; unfold av_audio_fifo_size; rewrite Q; lia).
  rewrite (read_from_fifo_ok w c N af A F), Q.
  assert (Hq : (Z.to_nat N <= length q)%nat) by lia.
  assert (Hne : q <> []) by (destruct q; [simpl in Full; lia | discriminate]).
  eexists 0, _, _, (skipn (Z.to_nat N) q), rem.
  split; [reflexivity|].
  split; [unfold steady, fifo_contents; simpl; rewrite KU; auto|].
  split; [reflexivity|]. simpl. rewrite KL.
  split; [reflexivity|]. split; [reflexivity|].
  right. split; [destruct q; [congruence | discriminate]|].
  split; [reflexivity|]. eexists. split; [reflexivity|]. simpl.
  replace (Z.to_nat N - length q)%nat with 0%nat by lia.
  split; [rewrite firstn_app; replace (Z.to_nat N - length q)%nat with 0%nat
            by lia; rewrite firstn_0, app_nil_r; reflexivity|].
  split; [unfold wf_buf; simpl; rewrite length_firstn; lia|].
  split; [rewrite skipn_app; replace (Z.to_nat N - length q)%nat with 0%nat
            by lia; reflexivity|].
  intros k e TP Cg Np Lo Hi.
  rewrite (samples_to_ticks_exact _ k N TP), (Np Hne).
  destruct TP as (Hk & _).
  rewrite length_app, Nat2Z.inj_add in Hi.
  split; [reflexivity|].
  split.
  - unfold add64. apply wrap64_in_range. unfold in_int64, INT64_MAX in *. nia.
  - replace (e + k * N + k * Z.of_nat (length (skipn (Z.to_nat N) q)))
      with (e + k * Z.of_nat (length q)); [exact Cg|].
    rewrite length_skipn. nia.
Qed.

(** A call at end-of-stream with too few samples in the queue. *)
Lemma eof_steady fuel w q af c N :
  0 < N -> steady w q [] -> audio_fifo (sink w) = Some af ->
  Z.of_nat (length q) < N ->
  exists ret out w' q' rem',
    read_samples_loop (S fuel) w (Cell c) N = Done (ret, out, w') /\
    steady w' q' rem' /\ rem' = [] /\
    sample_rate (link w') = sample_rate (link w) /\
    time_base (link w') = time_base (link w) /\
    served w q [] N c ret out w' q' rem'.
Proof.
  intros HN St F Short. pose proof (steady_fifo _ _ _ _ St F) as Q.
  pose proof St as (CB & _ & UP & NF).
  destruct (try_alloc_no_failure w NF) as (A & NF1).
  destruct (try_alloc_keeps w) as (KS & KL & KU & _).
  assert (R : av_buffersink_read w (Cell None)
              = Done (AVERROR_EOF, Cell None, w)).
  { unfold av_buffersink_read, ff_request_frame. rewrite UP. reflexivity. }
  rewrite read_samples_loop_S, F.
  replace (N <=? av_audio_fifo_size af) with false
    by (symmetry; apply Z.leb_gt; unfold av_audio_fifo_size; rewrite Q; lia).
  rewrite R, F, Z.eqb_refl. unfold av_audio_fifo_size. rewrite Q.
  destruct (Z.eqb_spec (Z.of_nat (length q)) 0) as [E0|E0].
  - destruct q; [|simpl in E0; lia].
    simpl. exists AVERROR_EOF, (Cell c), w, [], [].
    split; [reflexivity|]. split; [exact St|]. repeat split.
    left. repeat split.
  - assert (Hne : q <> []) by (intros ->; simpl in E0; lia).
    cbn [andb negb].
    rewrite (read_from_fifo_ok w c _ af A F), Q.
    rewrite Nat2Z.id, firstn_all, skipn_all.
    eexists 0, _, _, [], [].
    split; [reflexivity|].
    split; [unfold steady, fifo_contents; simpl; rewrite KU; auto|].
    split; [reflexivity|]. simpl. rewrite KL.
    split; [reflexivity|]. split; [reflexivity|].
    right. rewrite app_nil_r. split; [exact Hne|].
    split; [reflexivity|]. eexists. split; [reflexivity|]. simpl.
    split; [symmetry; apply firstn_all2; lia|].
    split; [reflexivity|].
    split; [symmetry; apply skipn_all2; lia|].
    intros k e TP _ Np Lo Hi.
    rewrite (samples_to_ticks_exact _ k _ TP), (Np Hne).
    destruct TP as (Hk & _).
    split; [reflexivity|]. split; [|exact I].
    unfold add64. apply wrap64_in_range. unfold in_int64, INT64_MAX in *. nia.
Qed.

(** The loop of a call on a steady sink. *)
Lemma read_samples_loop_steady : forall rem fuel w q af c N,
  0 < N -> steady w q rem -> audio_fifo (sink w) = Some af ->
  Forall (@wf_buf sample) rem -> (length rem < fuel)%nat ->
  exists ret out w' q' rem',
    read_samples_loop fuel w (Cell c) N = Done (ret, out, w') /\
    steady w' q' rem' /\ Forall (@wf_buf sample) rem' /\
    sample_rate (link w') = sample_rate (link w) /\
    time_base (link w') = time_base (link w) /\
    served w q rem N c ret out w' q' rem'.
Proof.
  induction rem as [|b rem IH]; intros fuel w q af c N HN St F Wf Len;
    (destruct fuel as [|fuel]; [simpl in Len; lia|]);
    destruct (Z_le_gt_dec N (Z.of_nat (length q))) as [Full|Short].
  - destruct (full_steady fuel w q [] af c N HN St F Full)
      as (ret & out & w' & q' & rem' & H1 & H2 & -> & H3 & H4 & H5).
    exists ret, out, w', q', []. auto 10.
  - destruct (eof_steady fuel w q af c N HN St F ltac:(lia))
      as (ret & out & w' & q' & rem' & H1 & H2 & -> & H3 & H4 & H5).
    exists ret, out, w', q', []. auto 10.
  - destruct (full_steady fuel w q (b :: rem) af c N HN St F Full)
      as (ret & out & w' & q' & rem' & H1 & H2 & -> & H3 & H4 & H5).
    exists ret, out, w', q', (b :: rem). auto 10.
  - pose proof (steady_fifo _ _ _ _ St F) as Q.
    destruct (pull_steady w q b rem St) as (w1 & R & St1 & KS & KR & KT).
    pose proof (Forall_inv Wf) as Wb. pose proof (Forall_inv_tail Wf) as Wrem.
    unfold wf_buf in Wb.
    rewrite (read_samples_loop_pull fuel w (Cell c) N af 0 b w1 F
               ltac:(unfold av_audio_fifo_size; rewrite Q; lia) R ltac:(lia)).
    pose proof (refill_effect w1 af b) as E. simpl in E.
    destruct (refill w1 af b) as [ret1 w2]. simpl in E |- *.
    destruct E as (EN & EC & EU & EL & _ & _ & ENF & af1 & added & EF & ES & EA).
    destruct St1 as (C1 & _ & U1 & NF1).
    destruct (ENF NF1) as (NF2 & ->).
    assert (Hnb : 0 <= nb_samples b) by (rewrite Wb; lia).
    specialize (EA Hnb). subst added.
    rewrite Wb, Nat2Z.id, firstn_all in ES.
    replace (0 <=? nb_samples b) with true by (symmetry; apply Z.leb_le; lia).
    assert (St2 : steady w2 (q ++ extended_data b) rem).
    { unfold steady, fifo_contents. rewrite EC, EU, EF, ES, Q. auto. }
    destruct (IH fuel w2 (q ++ extended_data b) af1 c N HN St2 EF Wrem
                ltac:(simpl in Len; lia))
      as (ret & out & w' & q' & rem' & H1 & H2 & H3 & H4 & H5 & H6).
    exists ret, out, w', q', rem'.
    split; [exact H1|]. split; [exact H2|]. split; [exact H3|].
    rewrite EL in H4, H5.
    split; [congruence|]. split; [congruence|].
    unfold served in *. rewrite flat_cons, app_assoc.
    destruct H6 as [H6|(N6 & R6 & b6 & O6 & D6 & W6 & S6 & P6)];
      [left; exact H6|].
    right. split; [exact N6|]. split; [exact R6|].
    exists b6. split; [exact O6|]. split; [exact D6|]. split; [exact W6|].
    split; [exact S6|].
    intros k e TP Cg Np Lo Hi.
    destruct Cg as (Pb & Cg).
    assert (TP1 : ticks_per_sample (link w1) k).
    { unfold ticks_per_sample in *. rewrite KR, KT. exact TP. }
    apply P6; auto.
    + rewrite EL. exact TP1.
    + rewrite length_app, Nat2Z.inj_add, <- Wb.
      replace (e + k * (Z.of_nat (length q) + nb_samples b))
        with (e + k * Z.of_nat (length q) + k * nb_samples b) by lia.
      exact Cg.
    + intros _. rewrite EN.
      rewrite (samples_to_ticks_exact _ k _ TP1).
      destruct TP1 as (Hk & _).
      replace (pts b =? AV_NOPTS_VALUE) with false.
      2:{ symmetry. apply Z.eqb_neq. unfold AV_NOPTS_VALUE. rewrite Pb. nia. }
      unfold av_audio_fifo_size. rewrite Q, Pb. unfold sub64.
      replace (e + k * Z.of_nat (length q) - k * Z.of_nat (length q))
        with e by lia.
      apply wrap64_in_range. rewrite <- app_assoc, length_app in Hi.
      unfold in_int64, INT64_MAX in *. nia.
Qed.

(** One call for [N] samples on a steady sink, with or without a queue. *)
Lemma read_samples_steady w q rem c N :
  0 < N -> steady w q rem -> Forall (@wf_buf sample) rem ->
  exists ret out w' q' rem',
    av_buffersink_read_samples w (Cell c) N = Done (ret, out, w') /\
    steady w' q' rem' /\ Forall (@wf_buf sample) rem' /\
    sample_rate (link w') = sample_rate (link w) /\
    time_base (link w') = time_base (link w) /\
    served w q rem N c ret out w' q' rem'.
Proof.
  intros HN St Wf. unfold av_buffersink_read_samples.
  destruct (audio_fifo (sink w)) as [af|] eqn:F.
  - apply read_samples_loop_steady with (af := af); auto.
    destruct St as (_ & _ & -> & _). rewrite length_map. lia.
  - unfold av_audio_fifo_alloc.
    pose proof St as (CB & Q & UP & NF).
    unfold fifo_contents in Q. rewrite F in Q. subst q.
    destruct (try_alloc_no_failure w NF) as (A & NF1).
    destruct (try_alloc_keeps w) as (KS & KL & KU & _).
    destruct (try_alloc w) as [ok w1]. simpl in A, NF1, KS, KL, KU. subst ok.
    match goal with
    | |- context [read_samples_loop _ ?x _ _] => set (w2 := x)
    end.
    assert (St2 : steady w2 [] rem).
    { unfold steady, fifo_contents. simpl. rewrite KS, KU. auto. }
    destruct (read_samples_loop_steady rem (S (length (upstream w2))) w2 []
                _ c N HN St2 eq_refl Wf)
      as (ret & out & w' & q' & rem' & H1 & H2 & H3 & H4 & H5 & H6).
    { simpl. rewrite KU, UP, length_map. lia. }
    exists ret, out, w', q', rem'.
    split; [exact H1|]. split; [exact H2|]. split; [exact H3|].
    simpl in H4, H5. rewrite KL in H4, H5.
    split; [exact H4|]. split; [exact H5|].
    unfold served in *. simpl in H6. rewrite KL, KS in H6. exact H6.
Qed.

(** ** A caller that reads until end-of-stream *)

Lemma read_all_S calls w n :
  read_all (S calls) w n =
  match av_buffersink_read_samples w (Cell None) n with
  | Fault f => Fault f
  | Done (ret, out, w1) =>
      if ret <? 0 then Done ([], ret, w1)
      else
        match out with
        | Cell (Some b) =>
            match read_all calls w1 n with
            | Done (bs, r, w2) => Done (b :: bs, r, w2)
            | Fault f => Fault f
            end
        | _ => Fault BadDeref
        end
  end.
Proof. reflexivity. Qed.

(** The whole run from a steady sink that has [m] full chunks left. *)
Lemma read_all_steady : forall m w q rem N,
  0 < N -> steady w q rem -> Forall (@wf_buf sample) rem ->
  Z.of_nat m * N <= Z.of_nat (length (q ++ flat rem)) < (Z.of_nat m + 1) * N ->
  exists outs w',
    read_all (m + 2) w N = Done (outs, AVERROR_EOF, w') /\
    map (@nb_samples sample) outs =
      repeat N m ++
      (if Z.of_nat (length (q ++ flat rem)) mod N =? 0 then []
       else [Z.of_nat (length (q ++ flat rem)) mod N]) /\
    Forall (@wf_buf sample) outs /\
    flat outs = q ++ flat rem /\
    forall k e,
      ticks_per_sample (link w) k ->
      contiguous k (e + k * Z.of_nat (length q)) rem ->
      (q <> [] -> next_pts (sink w) = e) ->
      INT64_MIN < e ->
      e + k * Z.of_nat (length (q ++ flat rem)) <= INT64_MAX ->
      contiguous k e outs.
Proof.
  induction m as [|m IH]; intros w q rem N HN St Wf Bound.
  - destruct (read_samples_steady w q rem None N HN St Wf)
      as (ret & out & w1 & q1 & rem1 & H1 & St1 & Wf1 & KR & KT & Sv).
    cbn [Nat.add]. rewrite read_all_S, H1.
    destruct Sv as [(E & -> & -> & -> & ->)
                   |(NE & -> & b & -> & Db & Wb & Sk & Pt)].
    + exists [], w1. rewrite E. simpl. repeat split; auto.
    + cbn [Z.ltb Z.compare].
      assert (Hall : (length (q ++ flat rem) <= Z.to_nat N)%nat) by lia.
      rewrite firstn_all2 in Db by exact Hall.
      rewrite skipn_all2 in Sk by exact Hall.
      destruct (read_samples_steady w1 q1 rem1 None N HN St1 Wf1)
        as (ret2 & out2 & w2 & q2 & rem2 & H2 & _ & _ & _ & _ & Sv2).
      destruct Sv2 as [(_ & -> & _)|(NE2 & _)]; [|congruence].
      rewrite read_all_S, H2. simpl.
      exists [b], w2. split; [reflexivity|].
      assert (Hlen : Z.of_nat (length (q ++ flat rem)) <> 0).
      { destruct (q ++ flat rem); [congruence | simpl; lia]. }
      unfold wf_buf in Wb. rewrite Db in Wb.
      split.
      { simpl. rewrite Z.mod_small by lia.
        apply Z.eqb_neq in Hlen. rewrite Hlen, Wb. reflexivity. }
      split; [constructor; [unfold wf_buf; rewrite Db; exact Wb | constructor]|].
      split; [unfold flat; simpl; rewrite app_nil_r; exact Db|].
      intros k e TP Cg Np Lo Hi. simpl. split; [|exact I].
      apply (Pt k e TP Cg Np Lo Hi).
  - destruct (read_samples_steady w q rem None N HN St Wf)
      as (ret & out & w1 & q1 & rem1 & H1 & St1 & Wf1 & KR & KT & Sv).
    cbn [Nat.add]. rewrite read_all_S, H1.
    assert (Hfull : (Z.to_nat N <= length (q ++ flat rem))%nat) by nia.
    destruct Sv as [(E & _)|(NE & -> & b & -> & Db & Wb & Sk & Pt)].
    { rewrite E in Hfull. simpl in Hfull. lia. }
    cbn [Z.ltb Z.compare].
    assert (Lb : nb_samples b = N).
    { unfold wf_buf in Wb. rewrite Wb, Db, length_firstn. lia. }
    assert (L1 : Z.of_nat (length (q1 ++ flat rem1))
                 = Z.of_nat (length (q ++ flat rem)) - N).
    { rewrite Sk, length_skipn. lia. }
    destruct (IH w1 q1 rem1 N HN St1 Wf1 ltac:(rewrite L1; nia))
      as (outs & w2 & R2 & Nb & Wo & Fl & Pt2).
    rewrite R2. exists (b :: outs), w2. split; [reflexivity|].
    split.
    { simpl. rewrite Nb, Lb, L1.
      assert (M : (Z.of_nat (length (q ++ flat rem)) - N) mod N
                  = Z.of_nat (length (q ++ flat rem)) mod N).
      { rewrite <- (Z.mod_add _ 1 N) by lia. f_equal. lia. }
      rewrite M. reflexivity. }
    split; [constructor; assumption|].
    split; [rewrite flat_cons, Fl, Db, Sk; apply firstn_skipn|].
    intros k e TP Cg Np Lo Hi.
    destruct (Pt k e TP Cg Np Lo Hi) as (P1 & P2 & P3).
    simpl. split; [exact P1|].
    assert (TP1 : ticks_per_sample (link w1) k).
    { unfold ticks_per_sample in *. rewrite KR, KT. exact TP. }
    destruct TP as (Hk & _).
    apply Pt2; auto.
    + nia.
    + rewrite L1, Lb. nia.
Qed.


(** ** Exact re-chunking *)

(** C1.  A caller of a fresh sink that is fed frames of [total] samples in
    all and asks for [N > 0] samples until a call fails gets end-of-stream
    after [total / N] frames of [N] samples and, when [total mod N] is not
    zero, one last frame of [total mod N] samples.  Each frame holds as
    many samples as it says, the samples come out in the order they went
    in, and their number is [total]. *)
Theorem exact_rechunking frames N w :
  0 < N ->
  Forall (@wf_buf sample) frames ->
  cur_buf (sink w) = None ->
  fifo_contents w = [] ->
  upstream w = map (@deliver_one sample) frames ->
  no_alloc_failure w ->
  exists outs w',
    read_all (Z.to_nat (total_samples frames / N) + 2) w N
    = Done (outs, AVERROR_EOF, w') /\
    map (@nb_samples sample) outs =
      repeat N (Z.to_nat (total_samples frames / N)) ++
      (if total_samples frames mod N =? 0 then []
       else [total_samples frames mod N]) /\
    Forall (@wf_buf sample) outs /\
    flat outs = flat frames /\
    total_samples outs = total_samples frames.
Proof.
  intros HN Wf CB Q UP NF.
  assert (St : steady w [] frames) by (unfold steady; auto).
  rewrite (total_samples_flat frames Wf).
  set (T := Z.of_nat (length (flat frames))).
  assert (HT : 0 <= T) by (subst T; lia).
  pose proof (Z.div_pos T N HT HN) as Hd.
  pose proof (Z.div_mod T N ltac:(lia)) as Hdm.
  pose proof (Z.mod_pos_bound T N HN) as Hm.
  destruct (read_all_steady (Z.to_nat (T / N)) w [] frames N HN St Wf)
    as (outs & w' & R & Nb & Wo & Fl & _).
  { cbn [app]. fold T. rewrite Z2Nat.id by exact Hd. nia. }
  cbn [app] in Nb, Fl. fold T in Nb.
  exists outs, w'. repeat split; auto.
  rewrite (total_samples_flat outs Wo), Fl. reflexivity.
Qed.

(** * Further properties of the hand-off *)

(** A pull from an empty slot when the next request delivers one frame and
    succeeds: nothing but the list of requests changes. *)
Lemma pull_deliver_one w b rest :
  cur_buf (sink w) = None ->
  upstream w = deliver_one b :: rest ->
  exists w1,
    av_buffersink_read w (Cell None) = Done (0, Cell (Some b), w1) /\
    sink w1 = sink w /\
    upstream w1 = rest /\
    released w1 = released w /\
    allocs w1 = allocs w /\
    sample_rate (link w1) = sample_rate (link w) /\
    time_base (link w1) = time_base (link w).
Proof.
  destruct w as [[cb fifo np] l up rd al rel]. simpl. intros -> ->.
  unfold av_buffersink_read, ff_request_frame. simpl.
  eexists. split; [reflexivity|]. simpl. auto 10.
Qed.

Lemma pull_all_S calls w :
  pull_all (S calls) w =
  match av_buffersink_read w (Cell None) with
  | Fault f => Fault f
  | Done (ret, out, w1) =>
      if ret <? 0 then Done ([], ret, w1)
      else
        match out with
        | Cell (Some b) =>
            match pull_all calls w1 with
            | Done (bs, r, w2) => Done (b :: bs, r, w2)
            | Fault f => Fault f
            end
        | _ => Fault BadDeref
        end
  end.
Proof. reflexivity. Qed.

(** X1.  Frames pushed through the sink one per request come out of
    successive pulls in the order they went in, each exactly as it was
    delivered (timestamp, sample count and payload), and then the pull
    reports end-of-stream.  The sink ends as it began and has released
    none of the frames: they belong to the caller. *)
Theorem pull_fifo_order frames w :
  cur_buf (sink w) = None ->
  upstream w = map (@deliver_one sample) frames ->
  exists w',
    pull_all (S (length frames)) w = Done (frames, AVERROR_EOF, w') /\
    sink w' = sink w /\
    upstream w' = [] /\
    released w' = released w.
Proof.
  revert w. induction frames as [|b frames IH]; intros w CB UP.
  - exists w. rewrite pull_all_S.
    unfold av_buffersink_read, ff_request_frame. rewrite UP. simpl. auto.
  - destruct (pull_deliver_one w b _ CB UP)
      as (w1 & R & KS & KU & KR & _).
    destruct (IH w1 ltac:(rewrite KS; exact CB) KU) as (w' & P & S' & U' & R').
    exists w'. cbn [length]. rewrite pull_all_S, R. cbn [Z.ltb Z.compare].
    rewrite P. repeat split; congruence.
Qed.

Lemma deliver_all_occupied : forall bufs w,
  cur_buf (sink w) <> None -> bufs <> [] ->
  deliver_all bufs w = Fault AssertFailed.
Proof.
  intros [|b rest] w Occ NE; [congruence|].
  simpl. unfold start_frame. simpl.
  destruct (cur_buf (sink w)); [reflexivity | congruence].
Qed.

Lemma deliver_all_twice b1 b2 rest w :
  deliver_all (b1 :: b2 :: rest) w = Fault AssertFailed.
Proof.
  cbn [deliver_all]. unfold start_frame at 1. cbn [sink with_link cur_buf].
  destruct (cur_buf (sink w)); [reflexivity|].
  unfold start_frame. simpl. reflexivity.
Qed.

Lemma request_over_delivery w o rest :
  upstream w = o :: rest ->
  (2 <= length (delivered o))%nat \/
  (cur_buf (sink w) <> None /\ delivered o <> []) ->
  ff_request_frame w = Fault AssertFailed.
Proof.
  intros UP H. unfold ff_request_frame. rewrite UP.
  destruct H as [Two|(Occ & NE)].
  - destruct (delivered o) as [|b1 [|b2 l]]; simpl in Two; try lia.
    rewrite deliver_all_twice. reflexivity.
  - rewrite deliver_all_occupied; auto.
Qed.

(** X2.  The slot never takes a second frame.  When the coming request
    delivers two frames or more, or delivers any frame while the slot is
    still occupied, the pull does not return: the assertion of
    [start_frame] aborts.  The same holds for a call for samples that has
    to pull because its queue is too short. *)
Theorem over_delivery_aborts w c n af o rest :
  upstream w = o :: rest ->
  (2 <= length (delivered o))%nat \/
  (cur_buf (sink w) <> None /\ delivered o <> []) ->
  av_buffersink_read w (Cell c) = Fault AssertFailed /\
  (audio_fifo (sink w) = Some af -> av_audio_fifo_size af < n ->
   av_buffersink_read_samples w (Cell c) n = Fault AssertFailed).
Proof.
  intros UP H.
  assert (P : forall c0, av_buffersink_read w (Cell c0) = Fault AssertFailed).
  { intros c0. unfold av_buffersink_read.
    rewrite (request_over_delivery w o rest UP H). reflexivity. }
  split; [apply P|].
  intros F L. unfold av_buffersink_read_samples.
  rewrite F, read_samples_loop_S, F.
  apply Z.leb_gt in L. rewrite L, P. reflexivity.
Qed.

(** X3.  A frame delivered during a request that fails stays in the slot:
    the failing pull returns the status of the request and leaves the
    destination alone, and the next pull, whose request succeeds without
    delivering anything, hands out that frame and empties the slot. *)
Theorem stale_frame_is_kept w c b r s rest :
  cur_buf (sink w) = None ->
  upstream w = mkOutcome [b] r :: mkOutcome [] s :: rest ->
  r < 0 -> 0 <= s ->
  exists w1 w2,
    av_buffersink_read w (Cell c) = Done (r, Cell c, w1) /\
    cur_buf (sink w1) = Some b /\
    av_buffersink_read w1 (Cell c) = Done (0, Cell (Some b), w2) /\
    cur_buf (sink w2) = None /\
    upstream w2 = rest.
Proof.
  destruct w as [[cb fifo np] l up rd al rel]. simpl. intros -> -> R S.
  apply Z.ltb_lt in R. apply Z.ltb_ge in S.
  unfold av_buffersink_read, ff_request_frame. simpl. rewrite R.
  eexists. eexists. split; [reflexivity|]. simpl. rewrite S.
  repeat split.
Qed.

(** X4.  A pull with a destination never returns a positive value, whatever
    the request returns.  It returns 0 exactly when it has stored a frame
    in the destination, and then the slot is empty; on a negative value
    the destination keeps its content. *)
Theorem pull_status w c ret out w' :
  av_buffersink_read w (Cell c) = Done (ret, out, w') ->
  ret <= 0 /\
  (ret = 0 -> exists b, out = Cell (Some b) /\ cur_buf (sink w') = None) /\
  (ret < 0 -> out = Cell c).
Proof.
  unfold av_buffersink_read.
  destruct (ff_request_frame w) as [[r w1]|f]; [|discriminate].
  destruct (r <? 0) eqn:L.
  - apply Z.ltb_lt in L. intros H. inversion H; subst.
    split; [lia|]. split; [lia | reflexivity].
  - destruct (cur_buf (sink w1)) as [b|]; intros H; inversion H; subst.
    + split; [lia|]. split; [|lia]. intros _. exists b. auto.
    + unfold AVERROR, EINVAL. split; [lia|]. split; [lia | reflexivity].
Qed.

(** * Further properties of the calls for samples *)

Lemma read_from_fifo_success w pbuf m ret out w' af :
  read_from_fifo w pbuf m = Done (ret, out, w') ->
  audio_fifo (sink w) = Some af ->
  0 <= ret ->
  ret = 0 /\
  out = Cell (Some (mkBuf (next_pts (sink w)) m
                          (firstn (Z.to_nat m) (fifo_samples af)))) /\
  fifo_contents w' = skipn (Z.to_nat m) (fifo_samples af) /\
  next_pts (sink w') = add64 (next_pts (sink w)) (samples_to_ticks (link w) m) /\
  cur_buf (sink w') = cur_buf (sink w) /\
  upstream w' = upstream w /\
  released w' = released w /\
  link w' = link w.
Proof.
  intros H F P. destruct (fst (try_alloc w)) eqn:A.
  - destruct (try_alloc_keeps w) as (_ & KL & KU & KR).
    destruct pbuf as [|c].
    + unfold read_from_fifo, ff_get_audio_buffer in H.
      destruct (try_alloc_keeps w) as (KS & _).
      destruct (try_alloc w) as [ok w1]. simpl in A, KS. subst ok.
      rewrite KS, F in H. discriminate.
    + rewrite (read_from_fifo_ok w c m af A F) in H.
      inversion H; subst. simpl. auto 10.
  - rewrite (read_from_fifo_failed w pbuf m A) in H. inversion H; subst.
    unfold AVERROR, ENOMEM in P. lia.
Qed.

Lemma read_from_fifo_status w pbuf m ret out w' :
  read_from_fifo w pbuf m = Done (ret, out, w') ->
  ret = 0 \/ ret = AVERROR ENOMEM.
Proof.
  intros H. destruct (fst (try_alloc w)) eqn:A.
  - unfold read_from_fifo, ff_get_audio_buffer in H.
    destruct (try_alloc w) as [ok w1]. simpl in A. subst ok.
    destruct (audio_fifo (sink w1)); [|discriminate].
    destruct pbuf; [discriminate|]. inversion H. now left.
  - rewrite (read_from_fifo_failed w pbuf m A) in H. inversion H. now right.
Qed.

Lemma deliver_all_unstamped : forall bufs w w',
  deliver_all bufs w = Done w' ->
  Forall (fun b : AVFilterBufferRef sample => pts b = AV_NOPTS_VALUE) bufs ->
  (forall b, cur_buf (sink w) = Some b -> pts b = AV_NOPTS_VALUE) ->
  forall b, cur_buf (sink w') = Some b -> pts b = AV_NOPTS_VALUE.
Proof.
  induction bufs as [|x rest IH]; simpl; intros w w' H U S0.
  - inversion H; subst. exact S0.
  - destruct (start_frame _ x) as [[r w1]|f] eqn:E; [|discriminate].
    apply start_frame_keeps in E. destruct E as (_ & _ & C & _).
    inversion U as [|? ? Ux Ur]; subst.
    apply (IH w1 w' H Ur). intros b Hb. rewrite C in Hb.
    inversion Hb; subst. exact Ux.
Qed.

Lemma av_buffersink_read_unstamped w r (got : bufptr sample) w1 :
  unstamped_input w ->
  av_buffersink_read w (Cell None) = Done (r, got, w1) ->
  unstamped_input w1 /\
  forall b, got = Cell (Some b) -> pts b = AV_NOPTS_VALUE.
Proof.
  intros (S0 & U). unfold av_buffersink_read, ff_request_frame.
  destruct (upstream w) as [|o rest] eqn:UP.
  - pose proof AVERROR_EOF_neg as N. apply Z.ltb_lt in N. rewrite N.
    intros H. inversion H; subst. split.
    + split; [exact S0 | rewrite UP; constructor].
    + intros b Hb. discriminate.
  - destruct (deliver_all (delivered o) _) as [w2|f] eqn:D; [|discriminate].
    inversion U as [|? ? Uo Ur]; subst.
    pose proof (deliver_all_unstamped _ _ _ D Uo S0) as S2.
    apply deliver_all_keeps in D. destruct D as (_ & _ & D & _).
    simpl in D. rewrite <- D in Ur. clear D.
    destruct (status o <? 0).
    + intros H. inversion H; subst. split.
      * split; [exact S2 | exact Ur].
      * intros b Hb. discriminate.
    + destruct (cur_buf (sink w2)) as [b0|] eqn:C; intros H; inversion H; subst.
      * split.
        -- split; [simpl; intros b Hb; discriminate | simpl; exact Ur].
        -- intros b Hb. inversion Hb; subst. apply S2. reflexivity.
      * split.
        -- split; [intros b Hb; congruence | exact Ur].
        -- intros b Hb. discriminate.
Qed.

(** Every way the loop has to succeed ends in one drain of the queue; this
    is the state [w0] the drain starts from and the count [m] it takes. *)
Lemma read_samples_loop_success fuel : forall w pbuf n ret out w',
  read_samples_loop fuel w pbuf n = Done (ret, out, w') ->
  0 <= ret ->
  exists w0 af m,
    read_from_fifo w0 pbuf m = Done (ret, out, w') /\
    audio_fifo (sink w0) = Some af /\
    (exists added, fifo_samples af = fifo_contents w ++ added) /\
    (m = n /\ n <= av_audio_fifo_size af \/
     m = av_audio_fifo_size af /\ 0 < m < n) /\
    sample_rate (link w0) = sample_rate (link w) /\
    time_base (link w0) = time_base (link w) /\
    (unstamped_input w -> next_pts (sink w0) = next_pts (sink w)).
Proof.
  induction fuel as [|fuel IH]; intros w pbuf n ret out w' H P;
    [discriminate|].
  rewrite read_samples_loop_S in H.
  destruct (audio_fifo (sink w)) as [af|] eqn:F; [|discriminate].
  assert (C0 : fifo_contents w = fifo_samples af).
  { unfold fifo_contents. rewrite F. reflexivity. }
  destruct (n <=? av_audio_fifo_size af) eqn:L.
  { apply Z.leb_le in L. exists w, af, n. rewrite C0.
    split; [exact H|]. split; [exact F|].
    split; [exists []; rewrite app_nil_r; reflexivity|]. auto 10. }
  apply Z.leb_gt in L.
  destruct (av_buffersink_read w (Cell None)) as [[[r buf] w1]|f] eqn:R;
    [|discriminate].
  destruct (av_buffersink_read_keeps _ _ _ _ _ R) as (KF & KP & _ & _ & KR & KT).
  rewrite KF, F in H.
  destruct ((r =? AVERROR_EOF) && negb (av_audio_fifo_size af =? 0)) eqn:E.
  { apply andb_true_iff in E. destruct E as (_ & E).
    apply negb_true_iff, Z.eqb_neq in E.
    exists w1, af, (av_audio_fifo_size af). rewrite C0.
    split; [exact H|]. split; [congruence|].
    split; [exists []; rewrite app_nil_r; reflexivity|].
    split; [right; unfold av_audio_fifo_size in *; lia|]. auto. }
  destruct (r <? 0) eqn:Lr.
  { apply Z.ltb_lt in Lr. inversion H; subst. lia. }
  destruct buf as [|[b|]]; try discriminate.
  pose proof (refill_effect w1 af b) as RE. simpl in RE.
  destruct (refill w1 af b) as [ret1 w2]. simpl in RE.
  destruct RE as (EN & EC & EU & EL & _ & _ & _ & af1 & added & EF & ES & _).
  destruct (0 <=? ret1) eqn:L1.
  2:{ apply Z.leb_gt in L1. inversion H; subst. lia. }
  destruct (IH _ _ _ _ _ _ H P)
    as (w0 & af0 & m & D & F0 & (added0 & A0) & M & SR & TB & NP).
  exists w0, af0, m. split; [exact D|]. split; [exact F0|].
  split.
  { exists (added ++ added0). rewrite A0. unfold fifo_contents at 1.
    rewrite EF, ES, C0, app_assoc. reflexivity. }
  split; [exact M|]. rewrite EL in SR, TB.
  split; [congruence|]. split; [congruence|].
  intros U. destruct (av_buffersink_read_unstamped _ _ _ _ U R) as (U1 & Ub).
  rewrite NP.
  - rewrite EN, (Ub b eq_refl), Z.eqb_refl. exact KP.
  - destruct U1 as (S1 & U1). split; [rewrite EC; exact S1 | rewrite EU; exact U1].
Qed.

(** The same for a whole call, with or without a queue at its start. *)
Lemma read_samples_success w pbuf n ret out w' :
  av_buffersink_read_samples w pbuf n = Done (ret, out, w') ->
  0 <= ret ->
  exists w0 af m,
    read_from_fifo w0 pbuf m = Done (ret, out, w') /\
    audio_fifo (sink w0) = Some af /\
    (exists added, fifo_samples af = fifo_contents w ++ added) /\
    (m = n /\ n <= av_audio_fifo_size af \/
     m = av_audio_fifo_size af /\ 0 < m < n) /\
    sample_rate (link w0) = sample_rate (link w) /\
    time_base (link w0) = time_base (link w) /\
    (unstamped_input w -> next_pts (sink w0) = next_pts (sink w)).
Proof.
  intros H P. unfold av_buffersink_read_samples in H.
  destruct (audio_fifo (sink w)) as [af|] eqn:F.
  - apply (read_samples_loop_success _ _ _ _ _ _ _ H P).
  - unfold av_audio_fifo_alloc in H.
    destruct (try_alloc_keeps w) as (KS & KL & KU & _).
    destruct (try_alloc w) as [[|] w1]; simpl in KS, KL, KU.
    + destruct (read_samples_loop_success _ _ _ _ _ _ _ H P)
        as (w0 & af0 & m & D & F0 & A0 & M & SR & TB & NP).
      exists w0, af0, m. split; [exact D|]. split; [exact F0|].
      unfold fifo_contents in A0 |- *. simpl in A0, SR, TB, NP.
      rewrite F. rewrite KL in SR, TB. rewrite KS in NP.
      split; [exact A0|]. split; [exact M|].
      split; [exact SR|]. split; [exact TB|].
      intros (S0 & U). apply NP. unfold unstamped_input. simpl.
      rewrite KU. auto.
    + inversion H; subst. unfold AVERROR, ENOMEM in P. lia.
Qed.

Lemma read_samples_failure w pbuf n ret out w' :
  av_buffersink_read_samples w pbuf n = Done (ret, out, w') ->
  ret < 0 ->
  out = pbuf /\ exists added, fifo_contents w' = fifo_contents w ++ added.
Proof.
  intros H Neg. unfold av_buffersink_read_samples in H.
  destruct (audio_fifo (sink w)) as [af|] eqn:F.
  - eapply read_samples_loop_failure; eassumption.
  - unfold av_audio_fifo_alloc in H.
    pose proof (try_alloc_keeps w) as (K & _).
    destruct (try_alloc w) as [[|] w1]; simpl in K.
    + apply read_samples_loop_failure in H; [|assumption].
      destruct H as (O & added & A). split; [assumption|].
      exists added. rewrite A. unfold fifo_contents. simpl. rewrite F.
      reflexivity.
    + inversion H; subst. split; [reflexivity|]. exists [].
      unfold fifo_contents. rewrite K, F. reflexivity.
Qed.

(** X5.  A call for samples never returns a positive value, although the
    write to the queue inside it does.  It returns 0 exactly when it has
    stored a frame in the destination.  On every negative value,
    invalid-state and end-of-stream included, the destination keeps its
    content and the samples queued before the call are still at the head
    of the queue. *)
Theorem read_samples_status w pbuf n ret out w' :
  av_buffersink_read_samples w pbuf n = Done (ret, out, w') ->
  ret <= 0 /\
  (ret = 0 -> exists c b, pbuf = Cell c /\ out = Cell (Some b)) /\
  (ret < 0 ->
   out = pbuf /\ exists added, fifo_contents w' = fifo_contents w ++ added).
Proof.
  intros H.
  assert (Z0 : 0 <= ret -> ret = 0 /\ exists c b, pbuf = Cell c /\ out = Cell (Some b)).
  { intros P.
    destruct (read_samples_success w pbuf n ret out w' H P)
      as (w0 & af & m & D & F0 & _).
    destruct (read_from_fifo_success w0 pbuf m ret out w' af D F0 P)
      as (R0 & O & _).
    split; [exact R0|].
    destruct pbuf as [|c].
    - unfold read_from_fifo in D.
      destruct (ff_get_audio_buffer w0 m) as [[x|] w1].
      + destruct (audio_fifo (sink w1)); discriminate.
      + inversion D; subst. unfold AVERROR, ENOMEM in P. lia.
    - exists c. eexists. split; [reflexivity | exact O]. }
  split; [destruct (Z_lt_le_dec ret 0); [lia | destruct (Z0 ltac:(lia)); lia]|].
  split.
  - intros E. apply Z0. lia.
  - intros Neg. exact (read_samples_failure w pbuf n ret out w' H Neg).
Qed.

(** X6.  Whatever the graph does, a successful call for [n > 0] samples
    returns a frame that holds at least one sample and at most [n], and
    that carries exactly as many samples as its sample count says. *)
Theorem returned_frame_size w pbuf n out w' :
  0 < n ->
  av_buffersink_read_samples w pbuf n = Done (0, out, w') ->
  exists b,
    out = Cell (Some b) /\
    0 < nb_samples b <= n /\
    nb_samples b = Z.of_nat (length (extended_data b)).
Proof.
  intros HN H.
  destruct (read_samples_success w pbuf n 0 out w' H ltac:(lia))
    as (w0 & af & m & D & F0 & _ & M & _).
  destruct (read_from_fifo_success w0 pbuf m 0 out w' af D F0 ltac:(lia))
    as (_ & O & _).
  eexists. split; [exact O|]. simpl. rewrite length_firstn.
  unfold av_audio_fifo_size in M. lia.
Qed.

(** X7.  After every successful call, [next_pts] is the timestamp of the
    frame just returned plus the time of its samples
    ([av_rescale_q] of its sample count from 1 / sample_rate into the time
    base of the link), as an [int64_t] sum. *)
Theorem next_pts_follows_frame w pbuf n ret out w' :
  av_buffersink_read_samples w pbuf n = Done (ret, out, w') ->
  0 <= ret ->
  exists b,
    out = Cell (Some b) /\
    next_pts (sink w') =
      add64 (pts b)
            (av_rescale_q (nb_samples b)
                          (mkRational 1 (sample_rate (link w)))
                          (time_base (link w))) /\
    in_int64 (next_pts (sink w')).
Proof.
  intros H P.
  destruct (read_samples_success w pbuf n ret out w' H P)
    as (w0 & af & m & D & F0 & _ & _ & SR & TB & _).
  destruct (read_from_fifo_success w0 pbuf m ret out w' af D F0 P)
    as (_ & O & _ & NP & _).
  eexists. split; [exact O|]. simpl.
  unfold samples_to_ticks in NP. rewrite SR, TB in NP.
  split; [exact NP|]. rewrite NP. apply wrap64_range.
Qed.

(** The samples of one successful run of the loop on a graph that delivers
    one frame per request. *)
Lemma read_samples_loop_conservation fuel : forall w rem pbuf n ret out w',
  cur_buf (sink w) = None ->
  upstream w = map (@deliver_one sample) rem ->
  Forall (@wf_buf sample) rem ->
  read_samples_loop fuel w pbuf n = Done (ret, out, w') ->
  0 <= ret ->
  exists b pulled rem',
    out = Cell (Some b) /\
    rem = pulled ++ rem' /\
    upstream w' = map (@deliver_one sample) rem' /\
    extended_data b ++ fifo_contents w' = fifo_contents w ++ flat pulled.
Proof.
  induction fuel as [|fuel IH]; intros w rem pbuf n ret out w' CB UP Wf H P;
    [discriminate|].
  rewrite read_samples_loop_S in H.
  destruct (audio_fifo (sink w)) as [af|] eqn:F; [|discriminate].
  assert (C0 : fifo_contents w = fifo_samples af).
  { unfold fifo_contents. rewrite F. reflexivity. }
  assert (Drain : forall w0 m rem0,
             read_from_fifo w0 pbuf m = Done (ret, out, w') ->
             audio_fifo (sink w0) = Some af ->
             upstream w0 = map (@deliver_one sample) rem0 ->
             exists b pulled rem',
               out = Cell (Some b) /\
               rem0 = pulled ++ rem' /\
               upstream w' = map (@deliver_one sample) rem' /\
               extended_data b ++ fifo_contents w'
               = fifo_contents w ++ flat pulled).
  { intros w0 m rem0 D F0 U0.
    destruct (read_from_fifo_success _ _ _ _ _ _ af D F0 P)
      as (_ & O & Q & _ & _ & U1 & _).
    eexists. exists [], rem0. split; [exact O|]. simpl.
    split; [reflexivity|]. split; [congruence|].
    rewrite Q, firstn_skipn, C0. unfold flat. simpl. rewrite app_nil_r.
    reflexivity. }
  destruct (n <=? av_audio_fifo_size af); [exact (Drain w n rem H F UP)|].
  destruct rem as [|b0 rem1].
  - assert (R : av_buffersink_read w (Cell None)
                = Done (AVERROR_EOF, Cell None, w)).
    { unfold av_buffersink_read, ff_request_frame. rewrite UP. reflexivity. }
    rewrite R, F in H.
    destruct ((AVERROR_EOF =? AVERROR_EOF) && negb (av_audio_fifo_size af =? 0)).
    + exact (Drain w _ [] H F UP).
    + pose proof AVERROR_EOF_neg as Ng. apply Z.ltb_lt in Ng.
      rewrite Ng in H. inversion H; subst. apply Z.ltb_lt in Ng. lia.
  - destruct (pull_deliver_one w b0 _ CB UP)
      as (w1 & R & KS & KU & _).
    rewrite R, KS, F in H.
    replace (0 =? AVERROR_EOF) with false in H by reflexivity.
    cbn [andb Z.ltb Z.compare] in H.
    pose proof (refill_effect w1 af b0) as RE. simpl in RE.
    destruct (refill w1 af b0) as [ret1 w2]. simpl in RE.
    destruct RE as (_ & EC & EU & _ & _ & _ & _ & af1 & added & EF & ES & EA).
    destruct (0 <=? ret1) eqn:L1.
    2:{ apply Z.leb_gt in L1. inversion H; subst. lia. }
    apply Z.leb_le in L1. specialize (EA L1).
    pose proof (Forall_inv Wf) as Wb. pose proof (Forall_inv_tail Wf) as Wr.
    unfold wf_buf in Wb. rewrite Wb, Nat2Z.id, firstn_all in EA. subst added.
    destruct (IH w2 rem1 pbuf n ret out w'
                ltac:(rewrite EC, KS; exact CB)
                ltac:(rewrite EU; exact KU) Wr H P)
      as (b & pulled & rem' & O & E1 & E2 & E3).
    exists b, (b0 :: pulled), rem'.
    split; [exact O|]. split; [simpl; congruence|]. split; [exact E2|].
    rewrite E3. unfold fifo_contents at 1. rewrite EF, ES, C0, flat_cons.
    rewrite app_assoc. reflexivity.
Qed.

(** X8.  A successful call on a graph that delivers one frame per request
    drops and reorders nothing, whatever the allocator does: the frames it
    took are the first of those to come, and the samples of the returned
    frame followed by the samples left in the queue are exactly the
    samples queued before the call followed by the samples of the frames
    it took, in order. *)
Theorem success_keeps_order w rem pbuf n ret out w' :
  cur_buf (sink w) = None ->
  upstream w = map (@deliver_one sample) rem ->
  Forall (@wf_buf sample) rem ->
  av_buffersink_read_samples w pbuf n = Done (ret, out, w') ->
  0 <= ret ->
  exists b pulled rem',
    out = Cell (Some b) /\
    rem = pulled ++ rem' /\
    upstream w' = map (@deliver_one sample) rem' /\
    extended_data b ++ fifo_contents w' = fifo_contents w ++ flat pulled.
Proof.
  intros CB UP Wf H P. unfold av_buffersink_read_samples in H.
  destruct (audio_fifo (sink w)) as [af|] eqn:F.
  - exact (read_samples_loop_conservation _ w rem pbuf n ret out w'
             CB UP Wf H P).
  - unfold av_audio_fifo_alloc in H.
    destruct (try_alloc_keeps w) as (KS & _ & KU & _).
    destruct (try_alloc w) as [[|] w1]; simpl in KS, KU.
    + apply read_samples_loop_conservation with (rem := rem) in H; auto.
      * destruct H as (b & pulled & rem' & O & E1 & E2 & E3).
        exists b, pulled, rem'. unfold fifo_contents at 2 in E3. simpl in E3.
        unfold fifo_contents at 2. rewrite F. auto.
      * simpl. rewrite KS. exact CB.
      * simpl. rewrite KU. exact UP.
    + inversion H; subst. unfold AVERROR, ENOMEM in P. lia.
Qed.

(** X9.  When no frame in the slot or on its way from the graph has a
    timestamp, the timestamps are interpolated from [next_pts] alone: a
    successful call stamps its frame with the [next_pts] it found. *)
Theorem unstamped_input_interpolates w pbuf n ret out w' :
  unstamped_input w ->
  av_buffersink_read_samples w pbuf n = Done (ret, out, w') ->
  0 <= ret ->
  exists b, out = Cell (Some b) /\ pts b = next_pts (sink w).
Proof.
  intros U H P.
  destruct (read_samples_success w pbuf n ret out w' H P)
    as (w0 & af & m & D & F0 & _ & _ & _ & _ & NP).
  destruct (read_from_fifo_success w0 pbuf m ret out w' af D F0 P)
    as (_ & O & _).
  eexists. split; [exact O|]. simpl. exact (NP U).
Qed.

(** * Frames taken from the graph and their release *)

Lemma refill_status w af b :
  fst (refill w af b) = nb_samples b \/ fst (refill w af b) = AVERROR ENOMEM.
Proof.
  unfold refill.
  set (w1 := with_sink _ w).
  unfold av_audio_fifo_write.
  destruct (fifo_allocated af - av_audio_fifo_size af <? nb_samples b).
  - destruct (try_alloc w1) as [[|] w2]; simpl; auto.
  - simpl. auto.
Qed.

Lemma read_from_fifo_keeps w pbuf m ret out w' :
  read_from_fifo w pbuf m = Done (ret, out, w') ->
  cur_buf (sink w') = cur_buf (sink w) /\
  upstream w' = upstream w /\
  released w' = released w /\
  (audio_fifo (sink w) <> None -> audio_fifo (sink w') <> None).
Proof.
  unfold read_from_fifo, ff_get_audio_buffer.
  destruct (try_alloc_keeps w) as (KS & _ & KU & KR).
  destruct (try_alloc w) as [[|] w1]; simpl in KS, KU, KR.
  - destruct (audio_fifo (sink w1)) as [af|]; [|discriminate].
    destruct pbuf; [discriminate|]. intros H. inversion H; subst. simpl.
    rewrite KS, KU, KR. repeat split; auto. discriminate.
  - intros H. inversion H; subst. rewrite KS, KU, KR. auto.
Qed.

Lemma AVERROR_EOF_not_status ret :
  ret = 0 \/ ret = AVERROR ENOMEM -> ret <> AVERROR_EOF.
Proof.
  rewrite AVERROR_EOF_value. unfold AVERROR, ENOMEM. lia.
Qed.

(** The frames one run of the loop takes from a graph that delivers one
    frame per request. *)
Lemma read_samples_loop_accounting fuel : forall w rem pbuf n ret out w',
  cur_buf (sink w) = None ->
  upstream w = map (@deliver_one sample) rem ->
  Forall (@wf_buf sample) rem ->
  read_samples_loop fuel w pbuf n = Done (ret, out, w') ->
  exists pulled rem',
    rem = pulled ++ rem' /\
    upstream w' = map (@deliver_one sample) rem' /\
    cur_buf (sink w') = None /\
    released w' = released w ++ map (@BufferUnref sample) pulled /\
    audio_fifo (sink w') <> None /\
    (ret = AVERROR_EOF -> rem' = []) /\
    (forall p x, pulled = p ++ [x] ->
                 Z.of_nat (length (fifo_contents w ++ flat p)) < n).
Proof.
  induction fuel as [|fuel IH]; intros w rem pbuf n ret out w' CB UP Wf H;
    [discriminate|].
  rewrite read_samples_loop_S in H.
  destruct (audio_fifo (sink w)) as [af|] eqn:F; [|discriminate].
  assert (C0 : fifo_contents w = fifo_samples af).
  { unfold fifo_contents. rewrite F. reflexivity. }
  assert (Drain : forall w0 m rem0,
             read_from_fifo w0 pbuf m = Done (ret, out, w') ->
             cur_buf (sink w0) = None ->
             upstream w0 = map (@deliver_one sample) rem0 ->
             released w0 = released w ->
             audio_fifo (sink w0) <> None ->
             upstream w' = map (@deliver_one sample) rem0 /\
             cur_buf (sink w') = None /\
             released w' = released w ++ map (@BufferUnref sample) [] /\
             audio_fifo (sink w') <> None /\ ret <> AVERROR_EOF).
  { intros w0 m rem0 D C U R A.
    pose proof (read_from_fifo_status _ _ _ _ _ _ D) as St.
    apply read_from_fifo_keeps in D. destruct D as (D1 & D2 & D3 & D4).
    simpl. rewrite app_nil_r.
    repeat split; try congruence; auto.
    apply AVERROR_EOF_not_status. exact St. }
  assert (Nil : forall p (x : AVFilterBufferRef sample), [] <> p ++ [x]).
  { intros p x. apply app_cons_not_nil. }
  destruct (n <=? av_audio_fifo_size af) eqn:L.
  { destruct (Drain w n rem H CB UP eq_refl ltac:(congruence))
      as (D1 & D2 & D3 & D4 & D5).
    exists [], rem. split; [reflexivity|]. split; [exact D1|]. split; [exact D2|].
    split; [exact D3|]. split; [exact D4|]. split; [intros E; congruence|].
    intros p x E. destruct (Nil p x E). }
  apply Z.leb_gt in L.
  destruct rem as [|b rem1].
  - assert (R : av_buffersink_read w (Cell None)
                = Done (AVERROR_EOF, Cell None, w)).
    { unfold av_buffersink_read, ff_request_frame. rewrite UP. reflexivity. }
    rewrite R, F in H.
    destruct ((AVERROR_EOF =? AVERROR_EOF) && negb (av_audio_fifo_size af =? 0)).
    + destruct (Drain w _ [] H CB UP eq_refl ltac:(congruence))
        as (D1 & D2 & D3 & D4 & D5).
      exists [], []. split; [reflexivity|]. split; [exact D1|].
      split; [exact D2|]. split; [exact D3|]. split; [exact D4|].
      split; [reflexivity|].
      intros p x E. destruct (Nil p x E).
    + pose proof AVERROR_EOF_neg as N. apply Z.ltb_lt in N. rewrite N in H.
      inversion H; subst.
      exists [], []. simpl. rewrite app_nil_r.
      split; [reflexivity|]. split; [exact UP|]. split; [exact CB|].
      split; [reflexivity|]. split; [congruence|]. split; [reflexivity|].
      intros p x E. destruct (Nil p x E).
  - destruct (pull_deliver_one w b _ CB UP)
      as (w1 & R & KS & KU & KR & _).
    rewrite R, KS, F in H.
    replace (0 =? AVERROR_EOF) with false in H by reflexivity.
    cbn [andb Z.ltb Z.compare] in H.
    pose proof (refill_effect w1 af b) as RE. simpl in RE.
    pose proof (refill_status w1 af b) as RS.
    destruct (refill w1 af b) as [ret1 w2]. simpl in RE, RS.
    destruct RE as (_ & EC & EU & _ & ER & _ & _ & af1 & added & EF & ES & EA).
    pose proof (Forall_inv Wf) as Wb. pose proof (Forall_inv_tail Wf) as Wr.
    unfold wf_buf in Wb.
    destruct (0 <=? ret1) eqn:L1.
    + apply Z.leb_le in L1. specialize (EA L1).
      rewrite Wb, Nat2Z.id, firstn_all in EA. subst added.
      destruct (IH w2 rem1 pbuf n ret out w'
                  ltac:(rewrite EC, KS; exact CB)
                  ltac:(rewrite EU; exact KU) Wr H)
        as (pulled & rem' & E1 & E2 & E3 & E4 & E5 & E6 & E7).
      exists (b :: pulled), rem'.
      split; [simpl; congruence|]. split; [exact E2|]. split; [exact E3|].
      split; [rewrite E4, ER, KR, <- app_assoc; reflexivity|].
      split; [exact E5|]. split; [exact E6|].
      intros p x E. destruct p as [|y p].
      * simpl. rewrite app_nil_r, C0. unfold av_audio_fifo_size in L. exact L.
      * simpl in E. inversion E; subst.
        specialize (E7 p x eq_refl).
        unfold fifo_contents in E7 at 1. rewrite EF, ES in E7.
        rewrite C0, flat_cons, app_assoc. exact E7.
    + apply Z.leb_gt in L1. inversion H; subst.
      exists [b], rem1. split; [reflexivity|].
      split; [rewrite EU; exact KU|].
      split; [rewrite EC, KS; exact CB|].
      split; [rewrite ER, KR; reflexivity|].
      split; [congruence|].
      split.
      * intros E. exfalso. rewrite AVERROR_EOF_value in E.
        unfold AVERROR, ENOMEM in RS. lia.
      * intros p x E. destruct p as [|y p].
        -- simpl. rewrite app_nil_r, C0. unfold av_audio_fifo_size in L. exact L.
        -- simpl in E. inversion E as [[E1 E2]].
           destruct (Nil p x E2).
Qed.

Lemma read_samples_accounting w rem pbuf n ret out w' :
  cur_buf (sink w) = None ->
  upstream w = map (@deliver_one sample) rem ->
  Forall (@wf_buf sample) rem ->
  av_buffersink_read_samples w pbuf n = Done (ret, out, w') ->
  exists pulled rem',
    rem = pulled ++ rem' /\
    upstream w' = map (@deliver_one sample) rem' /\
    cur_buf (sink w') = None /\
    released w' = released w ++ map (@BufferUnref sample) pulled /\
    (ret <> AVERROR ENOMEM -> audio_fifo (sink w') <> None) /\
    (ret = AVERROR_EOF -> rem' = []) /\
    (forall p x, pulled = p ++ [x] ->
                 Z.of_nat (length (fifo_contents w ++ flat p)) < n).
Proof.
  intros CB UP Wf H. unfold av_buffersink_read_samples in H.
  destruct (audio_fifo (sink w)) as [af|] eqn:F.
  - destruct (read_samples_loop_accounting _ _ _ _ _ _ _ _ CB UP Wf H)
      as (pulled & rem' & E1 & E2 & E3 & E4 & E5 & E6 & E7).
    exists pulled, rem'. auto 10.
  - unfold av_audio_fifo_alloc in H.
    destruct (try_alloc_keeps w) as (KS & _ & KU & KR).
    destruct (try_alloc w) as [[|] w1]; simpl in KS, KU, KR.
    + apply read_samples_loop_accounting with (rem := rem) in H; auto.
      * destruct H as (pulled & rem' & E1 & E2 & E3 & E4 & E5 & E6 & E7).
        exists pulled, rem'. simpl in E4. rewrite KR in E4.
        unfold fifo_contents in E7 |- *. simpl in E7. rewrite F.
        auto 10.
      * simpl. rewrite KS. exact CB.
      * simpl. rewrite KU. exact UP.
    + inversion H; subst. exists [], rem. simpl. rewrite app_nil_r.
      split; [reflexivity|]. split; [rewrite KU; exact UP|].
      split; [rewrite KS; exact CB|]. split; [exact KR|].
      split; [congruence|].
      split; [intros E; rewrite AVERROR_EOF_value in E; discriminate|].
      intros p x E. destruct (app_cons_not_nil p [] x E).
Qed.

(** X10.  A call fed one frame per request takes frames from the graph in
    order and only as long as its queue holds fewer than [n] samples: the
    frames it took are the first of those to come, and before the last one
    was requested the queue, with the others appended, was still short of
    [n].  Each frame it took is released exactly once before the call
    returns, whether the call succeeds or fails, and nothing else is
    released. *)
Theorem call_pulls_lazily w rem pbuf n ret out w' :
  cur_buf (sink w) = None ->
  upstream w = map (@deliver_one sample) rem ->
  Forall (@wf_buf sample) rem ->
  av_buffersink_read_samples w pbuf n = Done (ret, out, w') ->
  exists pulled rem',
    rem = pulled ++ rem' /\
    upstream w' = map (@deliver_one sample) rem' /\
    released w' = released w ++ map (@BufferUnref sample) pulled /\
    (forall p x, pulled = p ++ [x] ->
                 Z.of_nat (length (fifo_contents w ++ flat p)) < n).
Proof.
  intros CB UP Wf H.
  destruct (read_samples_accounting w rem pbuf n ret out w' CB UP Wf H)
    as (pulled & rem' & E1 & E2 & _ & E4 & _ & _ & E7).
  exists pulled, rem'. auto.
Qed.

(** The frames a whole run takes from the graph. *)
Lemma read_all_accounting calls : forall w frames n outs r w',
  cur_buf (sink w) = None ->
  upstream w = map (@deliver_one sample) frames ->
  Forall (@wf_buf sample) frames ->
  read_all calls w n = Done (outs, r, w') ->
  exists pulled rest,
    frames = pulled ++ rest /\
    upstream w' = map (@deliver_one sample) rest /\
    released w' = released w ++ map (@BufferUnref sample) pulled /\
    (r <> AVERROR ENOMEM -> audio_fifo (sink w') <> None) /\
    (r = AVERROR_EOF -> rest = []).
Proof.
  induction calls as [|calls IH]; intros w frames n outs r w' CB UP Wf H;
    [discriminate|].
  rewrite read_all_S in H.
  destruct (av_buffersink_read_samples w (Cell None) n)
    as [[[ret out] w1]|f] eqn:C; [|discriminate].
  destruct (read_samples_accounting w frames _ n ret out w1 CB UP Wf C)
    as (pulled & rem' & E1 & E2 & E3 & E4 & E5 & E6 & _).
  destruct (ret <? 0).
  - inversion H; subst. exists pulled, rem'. auto.
  - destruct out as [|[b|]]; try discriminate.
    destruct (read_all calls w1 n) as [[[bs r1] w2]|f] eqn:A; [|discriminate].
    inversion H; subst.
    assert (Wf' : Forall (@wf_buf sample) rem').
    { apply Forall_app in Wf. tauto. }
    destruct (IH w1 rem' n bs r w' E3 E2 Wf' A)
      as (pulled2 & rest & F1 & F2 & F3 & F4 & F5).
    exists (pulled ++ pulled2), rest.
    split; [rewrite <- app_assoc; congruence|]. split; [exact F2|].
    split; [rewrite F3, E4, map_app, app_assoc; reflexivity|]. auto.
Qed.

(** The whole run from a steady sink ends in a steady sink with nothing
    left. *)
Lemma read_all_final : forall m w q rem N,
  0 < N -> steady w q rem -> Forall (@wf_buf sample) rem ->
  Z.of_nat m * N <= Z.of_nat (length (q ++ flat rem)) < (Z.of_nat m + 1) * N ->
  exists outs w',
    read_all (m + 2) w N = Done (outs, AVERROR_EOF, w') /\ steady w' [] [].
Proof.
  induction m as [|m IH]; intros w q rem N HN St Wf Bound.
  - destruct (read_samples_steady w q rem None N HN St Wf)
      as (ret & out & w1 & q1 & rem1 & H1 & St1 & Wf1 & _ & _ & Sv).
    cbn [Nat.add]. rewrite read_all_S, H1.
    destruct Sv as [(E & -> & -> & -> & ->)
                   |(NE & -> & b & -> & Db & Wb & Sk & _)].
    + exists [], w1. simpl. auto.
    + cbn [Z.ltb Z.compare].
      rewrite skipn_all2 in Sk by lia.
      destruct (read_samples_steady w1 q1 rem1 None N HN St1 Wf1)
        as (ret2 & out2 & w2 & q2 & rem2 & H2 & St2 & _ & _ & _ & Sv2).
      destruct Sv2 as [(_ & -> & _ & -> & ->)|(NE2 & _)]; [|congruence].
      rewrite read_all_S, H2. simpl. exists [b], w2. auto.
  - destruct (read_samples_steady w q rem None N HN St Wf)
      as (ret & out & w1 & q1 & rem1 & H1 & St1 & Wf1 & _ & _ & Sv).
    cbn [Nat.add]. rewrite read_all_S, H1.
    assert (Hfull : (Z.to_nat N <= length (q ++ flat rem))%nat) by nia.
    destruct Sv as [(E & _)|(NE & -> & b & -> & Db & Wb & Sk & _)].
    { rewrite E in Hfull. simpl in Hfull. lia. }
    cbn [Z.ltb Z.compare].
    assert (L1 : Z.of_nat (length (q1 ++ flat rem1))
                 = Z.of_nat (length (q ++ flat rem)) - N).
    { rewrite Sk, length_skipn. lia. }
    destruct (IH w1 q1 rem1 N HN St1 Wf1 ltac:(rewrite L1; nia))
      as (outs & w2 & R2 & St2).
    rewrite R2. exists (b :: outs), w2. auto.
Qed.

(** X11.  A caller of a fresh sink that reads chunks of [N > 0] samples
    until end-of-stream leaves nothing behind: every input frame has been
    released exactly once, in the order of arrival, no output frame has
    been released, the queue exists and is empty, and [uninit] then frees
    it, as the last release. *)
Theorem run_then_uninit_releases_all frames N w :
  0 < N ->
  Forall (@wf_buf sample) frames ->
  cur_buf (sink w) = None ->
  fifo_contents w = [] ->
  upstream w = map (@deliver_one sample) frames ->
  no_alloc_failure w ->
  exists outs w' af,
    read_all (Z.to_nat (total_samples frames / N) + 2) w N
    = Done (outs, AVERROR_EOF, w') /\
    released w' = released w ++ map (@BufferUnref sample) frames /\
    upstream w' = [] /\
    audio_fifo (sink w') = Some af /\ fifo_samples af = [] /\
    released (uninit w') =
      released w ++ map (@BufferUnref sample) frames ++ [FifoFreed af].
Proof.
  intros HN Wf CB Q UP NF.
  assert (St : steady w [] frames) by (unfold steady; auto).
  rewrite (total_samples_flat frames Wf).
  set (T := Z.of_nat (length (flat frames))).
  assert (HT : 0 <= T) by (subst T; lia).
  pose proof (Z.div_pos T N HT HN) as Hd.
  pose proof (Z.div_mod T N ltac:(lia)) as Hdm.
  pose proof (Z.mod_pos_bound T N HN) as Hm.
  destruct (read_all_final (Z.to_nat (T / N)) w [] frames N HN St Wf)
    as (outs & w' & R & St').
  { cbn [app]. fold T. rewrite Z2Nat.id by exact Hd. nia. }
  destruct (read_all_accounting _ w frames N outs AVERROR_EOF w' CB UP Wf R)
    as (pulled & rest & E1 & E2 & E3 & E4 & E5).
  rewrite (E5 eq_refl), app_nil_r in E1. subst pulled.
  rewrite (E5 eq_refl) in E2. simpl in E2.
  destruct (audio_fifo (sink w')) as [af|] eqn:F.
  2:{ exfalso. apply E4; [|reflexivity].
      rewrite AVERROR_EOF_value. unfold AVERROR, ENOMEM. lia. }
  exists outs, w', af. split; [exact R|]. split; [exact E3|].
  split; [exact E2|]. split; [exact F|].
  split; [exact (steady_fifo w' [] [] af St' F)|].
  unfold uninit, av_audio_fifo_free. rewrite F. simpl.
  rewrite E3, <- app_assoc. reflexivity.
Qed.

(** * Interpolated timestamps *)






(** * Timestamps of the frames returned *)







Lemma contiguous_spaced k : forall (frames : list (AVFilterBufferRef sample)) p,
  contiguous k p frames -> spaced k p frames.
Proof.
  induction frames as [|b rest IH]; intros p H; [exact I|].
  destruct H as (P & H). split; [lia|]. apply IH. rewrite P. exact H.
Qed.



End Properties.

(** * Concrete runs *)

Import Scenario.

Lemma start_frame_delivers_witness :
  (exists w',
     start_frame (fresh [] []) (frame 0 [1; 2]) = Done (0, w') /\
     cur_buf (sink w') = Some (frame 0 [1; 2]) /\
     link_cur_buf (link w') = None) /\
  start_frame occupied (frame 0 [1; 2]) = Fault AssertFailed.
Proof.
  split.
  - destruct (proj1 (start_frame_delivers Z (fresh [] []) (frame 0 [1; 2]))
                eq_refl) as (w' & H1 & H2 & H3 & _).
    exists w'. auto.
  - exact (proj2 (start_frame_delivers Z occupied (frame 0 [1; 2]))
                 (frame 7 [1; 2]) eq_refl).
Defined.

Lemma av_buffersink_read_pull_witness :
  av_buffersink_read (fresh [mkOutcome [] (-5)] []) (Cell None)
  = Done (-5, Cell None, fresh [] []) /\
  av_buffersink_read (fresh [mkOutcome [] 0] []) (Cell None)
  = Done (AVERROR EINVAL, Cell None, fresh [] []) /\
  exists w2,
    av_buffersink_read (fresh [deliver_one (frame 0 [1; 2])] []) (Cell None)
    = Done (0, Cell (Some (frame 0 [1; 2])), w2) /\
    cur_buf (sink w2) = None.
Proof.
  split; [|split].
  - apply (proj1 (av_buffersink_read_pull Z (fresh [mkOutcome [] (-5)] [])
                    None (-5) (fresh [] []) eq_refl)). lia.
  - apply (proj1 (proj2 (av_buffersink_read_pull Z (fresh [mkOutcome [] 0] [])
                           None 0 (fresh [] []) eq_refl))); [lia|reflexivity].
  - destruct (proj2 (proj2 (av_buffersink_read_pull Z
                              (fresh [deliver_one (frame 0 [1; 2])] []) None 0
                              _ eq_refl))
                ltac:(lia) (frame 0 [1; 2]) eq_refl) as (w2 & H1 & H2 & _).
    exists w2. auto.
Defined.

(** C5 as stated fails: the slot of [occupied] holds a frame, and [uninit]
    frees the queue only; the frame is not released. *)
Lemma uninit_keeps_slot_counterexample :
  cur_buf (sink occupied) = Some (frame 7 [1; 2]) /\
  released (uninit occupied) = [FifoFreed (mkFifo 1 2 4 [5])] /\
  ~ In (BufferUnref (frame 7 [1; 2])) (released (uninit occupied)).
Proof.
  split; [reflexivity|]. split; [reflexivity|].
  simpl. intros [H|[]]. discriminate.
Qed.

Lemma uninit_frees_queue_witness :
  released (uninit occupied) = [FifoFreed (mkFifo 1 2 4 [5])] /\
  uninit (fresh [] []) = fresh [] [].
Proof.
  split.
  - exact (proj1 (uninit_frees_queue Z occupied) _ eq_refl).
  - exact (proj1 (proj2 (uninit_frees_queue Z (fresh [] []))) eq_refl).
Defined.

Lemma full_drain_timestamp_witness :
  exists b w',
    read_samples_loop 1 (queued [1; 2; 3] 10 [] []) (Cell None) 2
    = Done (0, Cell (Some b), w') /\
    pts b = 10 /\ nb_samples b = 2 /\ extended_data b = [1; 2] /\
    fifo_contents w' = [3] /\ next_pts (sink w') = 12.
Proof.
  destruct (full_drain_timestamp Z 0 (queued [1; 2; 3] 10 [] []) None 2
              (mkFifo 1 2 4 [1; 2; 3]) eq_refl ltac:(unfold av_audio_fifo_size; simpl; lia) eq_refl)
    as (b & w' & H1 & H2 & H3 & H4 & H5 & _ & H7 & _).
  exists b, w'. repeat split; auto.
  apply H7. unfold in_int64, INT64_MIN, INT64_MAX. simpl. lia.
Defined.

Lemma refill_resync_witness :
  exists ret1 w2,
    refill (queued [1; 2] 5 [] []) (mkFifo 1 2 4 [1; 2]) (frame 100 [7; 8; 9])
    = (ret1, w2) /\
    next_pts (sink w2) = 98.
Proof.
  destruct (refill_resync Z 0
              (queued [1; 2] 5 [deliver_one (frame 100 [7; 8; 9])] [])
              (Cell None) 4 (mkFifo 1 2 4 [1; 2]) 0 (frame 100 [7; 8; 9])
              (queued [1; 2] 5 [] [])
              eq_refl ltac:(unfold av_audio_fifo_size; simpl; lia) eq_refl ltac:(lia))
    as (ret1 & w2 & H1 & _ & H3 & _).
  exists ret1, w2. split; [exact H1|].
  apply H3.
  - unfold AV_NOPTS_VALUE, INT64_MIN. simpl. lia.
  - unfold in_int64, INT64_MIN, INT64_MAX. simpl. lia.
Defined.

Lemma eof_drain_witness :
  read_samples_loop 1 (queued [] 5 [] []) (Cell None) 4
  = Done (AVERROR_EOF, Cell None, queued [] 5 [] []) /\
  exists b w',
    read_samples_loop 1 (queued [1; 2] 5 [] []) (Cell None) 4
    = Done (0, Cell (Some b), w') /\
    extended_data b = [1; 2] /\ pts b = 5 /\ fifo_contents w' = [].
Proof.
  split.
  - apply (proj1 (eof_drain Z 0 (queued [] 5 [] []) None 4 (mkFifo 1 2 4 [])
                    (Cell None) (queued [] 5 [] [])
                    eq_refl ltac:(unfold av_audio_fifo_size; simpl; lia) eq_refl)).
    reflexivity.
  - destruct (proj2 (eof_drain Z 0 (queued [1; 2] 5 [] []) None 4
                       (mkFifo 1 2 4 [1; 2]) (Cell None) (queued [1; 2] 5 [] [])
                       eq_refl ltac:(unfold av_audio_fifo_size; simpl; lia) eq_refl)
                ltac:(discriminate) eq_refl)
      as (b & w' & H1 & H2 & _ & _ & H5 & H6 & _).
    exists b, w'. auto.
Defined.

Lemma failed_read_keeps_queue_witness :
  exists w' added,
    av_buffersink_read_samples
      (queued [1; 2] 0 [deliver_one (frame 0 [3]); mkOutcome [] (-5)] [])
      (Cell None) 10
    = Done (-5, Cell None, w') /\
    fifo_contents w' = [1; 2] ++ added.
Proof.
  eexists.
  assert (R : av_buffersink_read_samples
                (queued [1; 2] 0 [deliver_one (frame 0 [3]); mkOutcome [] (-5)] [])
                (Cell None) 10
              = Done (-5, Cell None, _)) by reflexivity.
  destruct (failed_read_keeps_queue Z _ _ _ _ _ _ R ltac:(lia)
              ltac:(discriminate) ltac:(discriminate)) as (_ & added & A).
  exists added. split; [exact R | exact A].
Defined.

Lemma zero_sample_request_witness :
  exists b w',
    av_buffersink_read_samples
      (fresh [deliver_one (frame 0 [1; 2])] []) (Cell None) 0
    = Done (0, Cell (Some b), w') /\
    nb_samples b = 0 /\ extended_data b = [] /\ pts b = 0 /\
    upstream w' = [deliver_one (frame 0 [1; 2])] /\
    next_pts (sink w') = 0 /\ fifo_contents w' = [].
Proof.
  destruct (zero_sample_request Z (fresh [deliver_one (frame 0 [1; 2])] [])
              None eq_refl
              ltac:(unfold in_int64, INT64_MIN, INT64_MAX; simpl; lia)
              ltac:(simpl; lia))
    as (b & w' & H1 & H2 & H3 & H4 & H5 & _ & H7 & H8).
  exists b, w'. auto 10.
Defined.

Lemma exact_rechunking_witness :
  exists outs w',
    read_all 3 (fresh (map (@deliver_one Z) three_frames) []) 1000
    = Done (outs, AVERROR_EOF, w') /\
    map (@nb_samples Z) outs = [1000] /\
    flat outs = flat three_frames.
Proof.
  destruct (exact_rechunking Z three_frames 1000
              (fresh (map (@deliver_one Z) three_frames) [])
              ltac:(lia)
              ltac:(repeat constructor)
              eq_refl eq_refl eq_refl eq_refl)
    as (outs & w' & H1 & H2 & _ & H4 & _).
  exists outs, w'. split; [exact H1|]. split; [exact H2 | exact H4].
Defined.

(** The scenario of the spec: 480 + 500 + 20 samples asked for in chunks of
    1000 give one frame of 1000 samples stamped 0, then end-of-stream with no
    short frame. *)
Example scenario_480_500_20 :
  exists outs w',
    read_all 2 (fresh (map (@deliver_one Z) three_frames) []) 1000
    = Done (outs, AVERROR_EOF, w') /\
    map (@nb_samples Z) outs = [1000] /\
    map (@pts Z) outs = [0] /\
    fifo_contents w' = [].
Proof.
  eexists. eexists. split; [vm_compute; reflexivity|].
  repeat split.
Qed.


(** ** Concrete runs of the further properties *)

Lemma pull_fifo_order_witness :
  exists w',
    pull_all 3 (fresh (map (@deliver_one Z) overlapping) [])
    = Done (overlapping, AVERROR_EOF, w') /\
    released w' = [].
Proof.
  destruct (pull_fifo_order Z overlapping
              (fresh (map (@deliver_one Z) overlapping) []) eq_refl eq_refl)
    as (w' & H1 & _ & _ & H4).
  exists w'. split; [exact H1 | exact H4].
Defined.

Lemma over_delivery_aborts_witness :
  av_buffersink_read (queued [] 0 [double_delivery] []) (Cell None)
  = Fault AssertFailed /\
  av_buffersink_read_samples (queued [] 0 [double_delivery] []) (Cell None) 2
  = Fault AssertFailed.
Proof.
  destruct (over_delivery_aborts Z (queued [] 0 [double_delivery] []) None 2
              (mkFifo 1 2 4 []) double_delivery [] eq_refl
              ltac:(left; simpl; lia)) as (H1 & H2).
  split; [exact H1|].
  apply H2; [reflexivity | unfold av_audio_fifo_size; simpl; lia].
Defined.

Lemma stale_frame_is_kept_witness :
  exists w1 w2,
    av_buffersink_read
      (fresh [mkOutcome [frame 0 [1]] (-5); mkOutcome [] 0] []) (Cell None)
    = Done (-5, Cell None, w1) /\
    cur_buf (sink w1) = Some (frame 0 [1]) /\
    av_buffersink_read w1 (Cell None) = Done (0, Cell (Some (frame 0 [1])), w2).
Proof.
  destruct (stale_frame_is_kept Z
              (fresh [mkOutcome [frame 0 [1]] (-5); mkOutcome [] 0] [])
              None (frame 0 [1]) (-5) 0 [] eq_refl eq_refl
              ltac:(lia) ltac:(lia))
    as (w1 & w2 & H1 & H2 & H3 & _).
  exists w1, w2. auto.
Defined.

Lemma pull_status_witness :
  exists out w',
    av_buffersink_read (fresh [mkOutcome [frame 0 [1]] 7] []) (Cell None)
    = Done (0, out, w') /\
    exists b, out = Cell (Some b) /\ cur_buf (sink w') = None.
Proof.
  eexists. eexists.
  assert (R : av_buffersink_read (fresh [mkOutcome [frame 0 [1]] 7] [])
                (Cell None) = Done (0, _, _)) by (vm_compute; reflexivity).
  split; [exact R|].
  exact (proj1 (proj2 (pull_status Z _ _ _ _ _ R)) eq_refl).
Defined.

Lemma read_samples_status_witness :
  exists out w',
    av_buffersink_read_samples (queued [1; 2; 3] 10 [] []) (Cell None) 2
    = Done (0, out, w') /\
    exists c b, (Cell None : bufptr Z) = Cell c /\ out = Cell (Some b).
Proof.
  eexists. eexists.
  assert (R : av_buffersink_read_samples (queued [1; 2; 3] 10 [] [])
                (Cell None) 2 = Done (0, _, _)) by (vm_compute; reflexivity).
  split; [exact R|].
  exact (proj1 (proj2 (read_samples_status Z _ _ _ _ _ _ R)) eq_refl).
Defined.

Lemma returned_frame_size_witness :
  exists out w',
    av_buffersink_read_samples
      (queued [1] 0 [deliver_one (frame 5 [2; 3; 4])] []) (Cell None) 3
    = Done (0, out, w') /\
    exists b, out = Cell (Some b) /\ 0 < nb_samples b <= 3 /\
              nb_samples b = Z.of_nat (length (extended_data b)).
Proof.
  eexists. eexists.
  assert (R : av_buffersink_read_samples
                (queued [1] 0 [deliver_one (frame 5 [2; 3; 4])] [])
                (Cell None) 3 = Done (0, _, _)) by (vm_compute; reflexivity).
  split; [exact R|].
  exact (returned_frame_size Z _ _ 3 _ _ ltac:(lia) R).
Defined.

Lemma next_pts_follows_frame_witness :
  exists out w',
    av_buffersink_read_samples
      (queued [1] 0 [deliver_one (frame 5 [2; 3; 4])] []) (Cell None) 3
    = Done (0, out, w') /\
    exists b, out = Cell (Some b) /\
              next_pts (sink w') =
              add64 (pts b) (av_rescale_q (nb_samples b)
                                          (mkRational 1 48000)
                                          (mkRational 1 48000)).
Proof.
  eexists. eexists.
  assert (R : av_buffersink_read_samples
                (queued [1] 0 [deliver_one (frame 5 [2; 3; 4])] [])
                (Cell None) 3 = Done (0, _, _)) by (vm_compute; reflexivity).
  split; [exact R|].
  destruct (next_pts_follows_frame Z _ _ _ _ _ _ R ltac:(lia))
    as (b & H1 & H2 & _).
  exists b. split; [exact H1 | exact H2].
Defined.

Lemma success_keeps_order_witness :
  exists out w',
    av_buffersink_read_samples
      (queued [1] 0 [deliver_one (frame 5 [2; 3; 4])] []) (Cell None) 3
    = Done (0, out, w') /\
    exists b pulled rem',
      out = Cell (Some b) /\
      [frame 5 [2; 3; 4]] = pulled ++ rem' /\
      upstream w' = map (@deliver_one Z) rem' /\
      extended_data b ++ fifo_contents w' = [1] ++ flat pulled.
Proof.
  eexists. eexists.
  assert (R : av_buffersink_read_samples
                (queued [1] 0 [deliver_one (frame 5 [2; 3; 4])] [])
                (Cell None) 3 = Done (0, _, _)) by (vm_compute; reflexivity).
  split; [exact R|].
  exact (success_keeps_order Z
           (queued [1] 0 [deliver_one (frame 5 [2; 3; 4])] [])
           [frame 5 [2; 3; 4]] _ _ _ _ _ eq_refl eq_refl
           ltac:(repeat constructor) R ltac:(lia)).
Defined.

Lemma unstamped_input_interpolates_witness :
  exists out w',
    av_buffersink_read_samples
      (queued [] 42 (map (@deliver_one Z) unstamped) []) (Cell None) 3
    = Done (0, out, w') /\
    exists b, out = Cell (Some b) /\ pts b = 42.
Proof.
  eexists. eexists.
  assert (R : av_buffersink_read_samples
                (queued [] 42 (map (@deliver_one Z) unstamped) [])
                (Cell None) 3 = Done (0, _, _)) by (vm_compute; reflexivity).
  split; [exact R|].
  refine (unstamped_input_interpolates Z _ _ _ _ _ _ _ R ltac:(lia)).
  split.
  - intros b Hb. discriminate.
  - repeat constructor.
Defined.

Lemma call_pulls_lazily_witness :
  exists ret out w' pulled rem',
    av_buffersink_read_samples
      (fresh (map (@deliver_one Z) gapped) []) (Cell None) 3
    = Done (ret, out, w') /\
    gapped = pulled ++ rem' /\
    upstream w' = map (@deliver_one Z) rem' /\
    released w' = map (@BufferUnref Z) pulled.
Proof.
  eexists. eexists. eexists.
  assert (R : av_buffersink_read_samples
                (fresh (map (@deliver_one Z) gapped) [])
                (Cell None) 3 = Done (_, _, _)) by (vm_compute; reflexivity).
  destruct (call_pulls_lazily Z (fresh (map (@deliver_one Z) gapped) [])
              gapped _ _ _ _ _ eq_refl eq_refl
              ltac:(repeat constructor) R)
    as (pulled & rem' & H1 & H2 & H3 & _).
  exists pulled, rem'. split; [exact R|]. auto.
Defined.

Lemma run_then_uninit_releases_all_witness :
  exists outs w' af,
    read_all 3 (fresh (map (@deliver_one Z) three_frames) []) 1000
    = Done (outs, AVERROR_EOF, w') /\
    released (uninit w') =
      map (@BufferUnref Z) three_frames ++ [FifoFreed af].
Proof.
  destruct (run_then_uninit_releases_all Z three_frames 1000
              (fresh (map (@deliver_one Z) three_frames) [])
              ltac:(lia) ltac:(repeat constructor)
              eq_refl eq_refl eq_refl eq_refl)
    as (outs & w' & af & H1 & _ & _ & _ & _ & H6).
  exists outs, w', af. split; [exact H1 | exact H6].
Defined.


